(** * Quiz scoring, submission and leaderboard handlers

    A shallow embedding of [src/handlers/quizzesHandlers.js]: the helper
    [calculateScore] and the Express handlers [submitQuizAnswers] and
    [getQuizLeaderboard], over an explicit model of the Firestore
    collections they read and write.

    Conventions.
    - JavaScript numbers are modelled by [Z].  Every number the handlers
      compute is a count or a sum of recorded scores; these are integers,
      on which double arithmetic is exact below 2^53.
    - Identifiers (document ids, [questionId], option [id]) are strings and
      [===] on them is [String.eqb].
    - A thrown JavaScript exception is the [Throw] case of [result]; the
      handlers' [try { ... } catch (error) { ... }] is [try_catch].
    - The local object [userScores], which the leaderboard handler uses as
      a dictionary, is modelled as JavaScript defines a plain object: own
      properties in creation order, property reads that fall back on
      [Object.prototype], and [Object.keys] listing own properties only. *)

From Stdlib Require Import ZArith List String Ascii Lia Permutation Sorted.
From stdpp Require Import base option gmap strings list.

Local Open Scope string_scope.
Local Open Scope list_scope.
Local Open Scope Z_scope.

(** ** Documents *)

(** [{ id, text, isCorrect }] *)
Record QuizOption := mkOption {
  option_id : string;
  option_text : string;
  option_isCorrect : bool
}.

(** [{ questionId, text, type, options }] *)
Record Question := mkQuestion {
  question_questionId : string;
  question_text : string;
  question_type : string;
  question_options : list QuizOption
}.

(** [{ questionId, selectedOptionId }] *)
Record Answer := mkAnswer {
  answer_questionId : string;
  answer_selectedOptionId : string
}.

(** A document of the [quizzes] collection, as [createQuiz] stores it. *)
Record Quiz := mkQuiz {
  quiz_title : string;
  quiz_description : string;
  quiz_questions : list Question;
  quiz_createdAt : Z
}.

(** A document of the [results] collection. *)
Record Submission := mkSubmission {
  submission_quizId : string;
  submission_userId : string;
  submission_answers : list Answer;
  submission_score : Z;
  submission_submittedAt : Z
}.

(** An element of a user's [quizzesTaken] array. *)
Record HistoryEntry := mkHistoryEntry {
  entry_quizId : string;
  entry_score : Z;
  entry_completedAt : Z
}.

#[global] Instance HistoryEntry_eq_dec : EqDecision HistoryEntry.
Proof. solve_decision. Defined.

(** A document of the [users] collection.  Only the [quizzesTaken] field is
    read or written here; it is [None] when the document has no such field
    (the destructured value is [undefined]). *)
Record UserDoc := mkUserDoc {
  user_quizzesTaken : option (list HistoryEntry)
}.

(** The Firestore database behind the global [db].  [quizzes] is only ever
    addressed by document id; [results] only grows; [users] lists the
    documents in the order in which [db.collection("users").get()] returns
    them. *)
Record Store := mkStore {
  quizzes : gmap string Quiz;
  results : list Submission;
  users : list (string * UserDoc)
}.

(** Document ids are unique within a collection. *)
Definition users_unique (db : Store) : Prop := NoDup (map fst (users db)).

(** ** Exceptions and the handler monad *)

Inductive JsError :=
| TypeError (message : string)
| FirestoreNotFound (path : string).

Inductive result (A : Type) :=
| Ok (a : A)
| Throw (e : JsError).
Arguments Ok {A} a.
Arguments Throw {A} e.

(** Code that runs against the store and may throw: the store reached so
    far is kept when an exception is raised. *)
Definition Handler (A : Type) : Type := Store -> Store * result A.

Definition ret {A} (a : A) : Handler A := fun db => (db, Ok a).
Definition throw {A} (e : JsError) : Handler A := fun db => (db, Throw e).
Definition bind {A B} (m : Handler A) (k : A -> Handler B) : Handler B :=
  fun db =>
    match m db with
    | (db', Ok a) => k a db'
    | (db', Throw e) => (db', Throw e)
    end.
Definition lift {A} (r : result A) : Handler A := fun db => (db, r).

Declare Scope handler_scope.
Delimit Scope handler_scope with handler.
Notation "'let!' x ':=' m 'in' k" := (bind m (fun x => k))
  (at level 10, x name, m at level 200, k at level 200) : handler_scope.

(** ** HTTP responses *)

(** [{ rank, userId, totalScore, quizzesTaken }] *)
Record LeaderboardRow := mkRow {
  row_rank : Z;
  row_userId : string;
  row_totalScore : Z;
  row_quizzesTaken : Z
}.

Inductive Body :=
| Text (s : string)
| Message (message : string)
| SubmitResult (message : string) (score : Z)
| Rows (rows : list LeaderboardRow).

(** [res.status(status).send(body)] *)
Record Response := mkResponse {
  status : Z;
  body : Body
}.

Definition try_catch (block : Handler Response) (handler : JsError -> Response)
  : Store -> Store * Response :=
  fun db =>
    match block db with
    | (db', Ok r) => (db', r)
    | (db', Throw e) => (db', handler e)
    end.

(** ** Firestore operations used by the handlers *)

(** [await db.collection("quizzes").doc(quizId).get()] followed by
    [.data()]: [None] stands for [undefined], which is what [data()]
    returns for a missing document. *)
Definition quizzes_doc_data (quizId : string) : Handler (option Quiz) :=
  fun db => (db, Ok (quizzes db !! quizId)).

(** [await db.collection("results").add(doc)] *)
Definition results_add (doc : Submission) : Handler unit :=
  fun db =>
    ({| quizzes := quizzes db; results := results db ++ [doc]; users := users db |},
     Ok tt).

(** [FieldValue.arrayUnion(e)]: the array is created when the field is
    missing, and an element already present is not added again. *)
Definition arrayUnion (e : HistoryEntry) (field : option (list HistoryEntry))
  : list HistoryEntry :=
  match field with
  | None => [e]
  | Some l => if decide (e ∈ l) then l else l ++ [e]
  end.

Fixpoint update_doc (userId : string) (f : UserDoc -> UserDoc)
    (docs : list (string * UserDoc)) : option (list (string * UserDoc)) :=
  match docs with
  | [] => None
  | (k, d) :: rest =>
      if String.eqb k userId then Some ((k, f d) :: rest)
      else match update_doc userId f rest with
           | Some rest' => Some ((k, d) :: rest')
           | None => None
           end
  end.

(** [await db.collection("users").doc(userId).update({ quizzesTaken:
    FieldValue.arrayUnion(e) })]: [update] rejects when the document does
    not exist. *)
Definition users_doc_update_quizzesTaken (userId : string) (e : HistoryEntry)
  : Handler unit :=
  fun db =>
    match update_doc userId
            (fun d => {| user_quizzesTaken := Some (arrayUnion e (user_quizzesTaken d)) |})
            (users db) with
    | Some docs => ({| quizzes := quizzes db; results := results db; users := docs |}, Ok tt)
    | None => (db, Throw (FirestoreNotFound userId))
    end.

(** [await db.collection("users").get()], as [usersSnapshot.docs]. *)
Definition users_get : Handler (list (string * UserDoc)) :=
  fun db => (db, Ok (users db)).

(** ** calculateScore *)

(** [questions.find((q) => q.questionId === answer.questionId)] *)
Definition find_question (questions : list Question) (answer : Answer)
  : option Question :=
  List.find (fun q => String.eqb (question_questionId q) (answer_questionId answer))
            questions.

(** [question.options.find((option) => option.isCorrect)] *)
Definition find_correctOption (question : Question) : option QuizOption :=
  List.find (fun option => option_isCorrect option) (question_options question).

(** The body of [answers.forEach((answer) => { ... })], as a function of the
    running [score]. *)
Definition score_answer (questions : list Question) (score : Z) (answer : Answer) : Z :=
  match find_question questions answer with
  | Some question =>
      match find_correctOption question with
      | Some correctOption =>
          if String.eqb (option_id correctOption) (answer_selectedOptionId answer)
          then score + 1
          else score
      | None => score
      end
  | None => score
  end.

(** [let score = 0; answers.forEach(...); return score;] *)
Definition score_loop (questions : list Question) (answers : list Answer) : Z :=
  fold_left (score_answer questions) answers 0.

(** [quizDoc.data().questions] throws a [TypeError] when [data()] is
    [undefined]. *)
Definition calculateScore (answers : list Answer) (quizId : string) : Handler Z :=
  (let! data := quizzes_doc_data quizId in
   match data with
   | None => throw (TypeError "Cannot read properties of undefined (reading 'questions')")
   | Some quiz => ret (score_loop (quiz_questions quiz) answers)
   end)%handler.

(** ** submitQuizAnswers *)

(** [quizId] is [req.params.quizId]; [userId] and [answers] are the fields
    of [req.body]; [submittedAt] and [completedAt] are the values of the two
    [new Date()] expressions. *)
Definition submitQuizAnswers (quizId userId : string) (answers : list Answer)
    (submittedAt completedAt : Z) : Store -> Store * Response :=
  try_catch
    (let! score := calculateScore answers quizId in
     let! _ := results_add
                 {| submission_quizId := quizId;
                    submission_userId := userId;
                    submission_answers := answers;
                    submission_score := score;
                    submission_submittedAt := submittedAt |} in
     let! _ := users_doc_update_quizzesTaken userId
                 {| entry_quizId := quizId;
                    entry_score := score;
                    entry_completedAt := completedAt |} in
     ret {| status := 200;
            body := SubmitResult "Quiz answers submitted successfully" score |})%handler
    (fun error => {| status := 500; body := Text "Internal Server Error" |}).

(** ** The [userScores] object *)

(** [{ totalScore, quizzesTaken }] *)
Record UserScore := mkUserScore {
  totalScore : Z;
  quizzesTaken : Z
}.

(** [const userScores = {}] is an ordinary object: its own properties, in
    creation order, on top of what it inherits from [Object.prototype]. *)
Definition JsObject : Type := list (string * UserScore).

(** The property names of [Object.prototype]; each holds a function (or,
    for [__proto__], the prototype object), so each reads as truthy. *)
Definition ObjectPrototype_names : list string :=
  [ "constructor"; "__defineGetter__"; "__defineSetter__"; "hasOwnProperty";
    "__lookupGetter__"; "__lookupSetter__"; "isPrototypeOf";
    "propertyIsEnumerable"; "toString"; "valueOf"; "__proto__";
    "toLocaleString" ].

(** [k] names a property every plain object inherits. *)
Definition inherited (k : string) : bool :=
  existsb (String.eqb k) ObjectPrototype_names.

(** What [userScores[k]] evaluates to. *)
Inductive JsValue :=
| Undefined
| OwnScore (v : UserScore)
| Builtin.

(** The own property [k] of [o], if there is one. *)
Fixpoint own_lookup (o : JsObject) (k : string) : option UserScore :=
  match o with
  | [] => None
  | (k', v) :: o' => if String.eqb k' k then Some v else own_lookup o' k
  end.

(** [o[k]]: the own property, else the inherited one, else [undefined]. *)
Definition get_property (o : JsObject) (k : string) : JsValue :=
  match own_lookup o k with
  | Some v => OwnScore v
  | None => if inherited k then Builtin else Undefined
  end.

(** Objects and functions are truthy, [undefined] is not. *)
Definition truthy (v : JsValue) : bool :=
  match v with
  | Undefined => false
  | OwnScore _ | Builtin => true
  end.

(** [userScores[k] = v]: an existing own property keeps its place, a new one
    is created last. *)
Fixpoint set_property (o : JsObject) (k : string) (v : UserScore) : JsObject :=
  match o with
  | [] => [(k, v)]
  | (k', v') :: o' =>
      if String.eqb k' k then (k', v) :: o' else (k', v') :: set_property o' k v
  end.

(** [array.forEach(callback)] for a callback that updates a local variable
    and may throw. *)
Fixpoint forEach {A S : Type} (callback : S -> A -> result S) (array : list A) (s : S)
  : result S :=
  match array with
  | [] => Ok s
  | x :: rest =>
      match callback s x with
      | Ok s' => forEach callback rest s'
      | Throw e => Throw e
      end
  end.

(** [userScores[userId].totalScore += quiz.score;
     userScores[userId].quizzesTaken += 1;]
    When [userScores[userId]] is an inherited builtin the two assignments
    create properties on that builtin and [userScores] itself is unchanged;
    on [undefined] the property access throws. *)
Definition add_quiz (userId : string) (userScores : JsObject) (quiz : HistoryEntry)
  : result JsObject :=
  match get_property userScores userId with
  | OwnScore v =>
      Ok (set_property userScores userId
            {| totalScore := totalScore v + entry_score quiz;
               quizzesTaken := quizzesTaken v + 1 |})
  | Builtin => Ok userScores
  | Undefined => Throw (TypeError "Cannot read properties of undefined (reading 'totalScore')")
  end.

(** The body of [usersSnapshot.docs.forEach((doc) => { ... })]. *)
Definition aggregate_doc (userScores : JsObject) (doc : string * UserDoc)
  : result JsObject :=
  match user_quizzesTaken (snd doc) with
  | Some history =>
      if (0 <? Z.of_nat (length history)) then
        let userId := fst doc in
        let userScores :=
          if negb (truthy (get_property userScores userId))
          then set_property userScores userId {| totalScore := 0; quizzesTaken := 0 |}
          else userScores in
        forEach (add_quiz userId) history userScores
      else Ok userScores
  | None => Ok userScores
  end.

(** ** Object.keys and Array.prototype.sort *)

(** [array.sort(compare)]: a stable sort; [x] goes before the first element
    it does not have to follow. *)
Fixpoint sort_insert {A : Type} (compare : A -> A -> Z) (x : A) (sorted : list A)
  : list A :=
  match sorted with
  | [] => [x]
  | y :: rest =>
      if compare x y <=? 0 then x :: y :: rest
      else y :: sort_insert compare x rest
  end.

Definition Array_sort {A : Type} (compare : A -> A -> Z) (array : list A) : list A :=
  foldr (sort_insert compare) [] array.

Definition digit_value (c : ascii) : option N :=
  let n := N_of_ascii c in
  if ((48 <=? n) && (n <=? 57))%N then Some (n - 48)%N else None.

Fixpoint parse_digits (s : string) (acc : N) : option N :=
  match s with
  | EmptyString => Some acc
  | String c s' =>
      match digit_value c with
      | Some d => parse_digits s' (10 * acc + d)%N
      | None => None
      end
  end.

(** An array index is a canonical numeric string (no sign, no leading zero)
    whose value is at most 2^32 - 2. *)
Definition array_index (k : string) : option N :=
  match k with
  | EmptyString => None
  | String c rest =>
      if Ascii.eqb c "0"%char
      then match rest with EmptyString => Some 0%N | _ => None end
      else match parse_digits k 0 with
           | Some n => if (n <=? 4294967294)%N then Some n else None
           | None => None
           end
  end.

(** [Object.keys(o)]: the own property names, array indices first in
    ascending numeric order, then the other names in creation order. *)
Definition Object_keys (o : JsObject) : list string :=
  let names := map fst o in
  let indices := omap (fun k => match array_index k with
                                | Some n => Some (n, k)
                                | None => None
                                end) names in
  let others := List.filter (fun k => match array_index k with
                                      | Some _ => false
                                      | None => true
                                      end) names in
  map snd (Array_sort (fun a b => Z.of_N (fst a) - Z.of_N (fst b)) indices) ++ others.

(** ** getQuizLeaderboard *)

(** [{ userId, totalScore, quizzesTaken }] *)
Record LeaderboardEntry := mkEntry {
  lb_userId : string;
  lb_totalScore : Z;
  lb_quizzesTaken : Z
}.

(** [(userId) => ({ userId, totalScore: userScores[userId].totalScore,
    quizzesTaken: userScores[userId].quizzesTaken })], for a [userId] that
    [Object.keys(userScores)] lists: [userScores[userId]] is then the own
    property of that name, so the [None] branch is never taken
    ([leaderboard_length]). *)
Definition entry_for (userScores : JsObject) (userId : string) : option LeaderboardEntry :=
  match own_lookup userScores userId with
  | Some v => Some {| lb_userId := userId;
                      lb_totalScore := totalScore v;
                      lb_quizzesTaken := quizzesTaken v |}
  | None => None
  end.

(** [(a, b) => b.totalScore - a.totalScore] *)
Definition descending (a b : LeaderboardEntry) : Z := lb_totalScore b - lb_totalScore a.

(** [Object.keys(userScores).map(...).sort(...)] *)
Definition leaderboard (userScores : JsObject) : list LeaderboardEntry :=
  Array_sort descending (omap (entry_for userScores) (Object_keys userScores)).

(** [leaderboard.map((user, index) => ({ rank: index + 1, ...user }))] *)
Definition indexedLeaderboard (leaderboard : list LeaderboardEntry) : list LeaderboardRow :=
  imap (fun index user => {| row_rank := Z.of_nat index + 1;
                             row_userId := lb_userId user;
                             row_totalScore := lb_totalScore user;
                             row_quizzesTaken := lb_quizzesTaken user |})
       leaderboard.

(** [usersSnapshot.empty] *)
Definition snapshot_empty (docs : list (string * UserDoc)) : bool :=
  match docs with [] => true | _ => false end.

Definition getQuizLeaderboard : Store -> Store * Response :=
  try_catch
    (let! docs := users_get in
     if snapshot_empty docs
     then ret {| status := 404; body := Message "No users found" |}
     else
       let! userScores := lift (forEach aggregate_doc docs []) in
       ret {| status := 200;
              body := Rows (indexedLeaderboard (leaderboard userScores)) |})%handler
    (fun error => {| status := 500; body := Text "Internal Server Error" |}).

(** ** createQuiz, getAllQuizzes, getQuizById *)

(** [{ quizId, title, description }] *)
Record QuizSummary := mkSummary {
  summary_quizId : string;
  summary_title : string;
  summary_description : string
}.

(** The bodies the three quiz handlers send. *)
Inductive QuizBody :=
| QuizText (s : string)
| QuizMessage (message : string)
| QuizCreated (message : string) (quizId : string)
| QuizList (quizzes : list QuizSummary)
| QuizData (data : Quiz).

(** [res.status(status).send(body)] *)
Record QuizResponse := mkQuizResponse {
  quiz_status : Z;
  quiz_body : QuizBody
}.

Definition try_catch_quiz (block : Handler QuizResponse) (handler : JsError -> QuizResponse)
  : Store -> Store * QuizResponse :=
  fun db =>
    match block db with
    | (db', Ok r) => (db', r)
    | (db', Throw e) => (db', handler e)
    end.

(** [await db.collection("quizzes").doc(quizId).set(data)]: creates the
    document, or replaces the one already stored under [quizId]. *)
Definition quizzes_doc_set (quizId : string) (data : Quiz) : Handler unit :=
  fun db =>
    ({| quizzes := <[quizId := data]> (quizzes db);
        results := results db;
        users := users db |},
     Ok tt).

(** Firestore returns the documents of a collection in ascending order of
    document id (byte-wise). *)
Definition by_document_id (a b : string * Quiz) : Z :=
  match String.compare (fst a) (fst b) with
  | Lt => -1
  | Eq => 0
  | Gt => 1
  end.

(** [await db.collection("quizzes").get()], as [quizzesSnapshot.docs]. *)
Definition quizzes_get : Handler (list (string * Quiz)) :=
  fun db => (db, Ok (Array_sort by_document_id (map_to_list (quizzes db)))).

(** [title], [description] and [questions] are the fields of [req.body];
    [quizId] is the value of [uuidv4()] and [createdAt] that of
    [new Date()]. *)
Definition createQuiz (title description : string) (questions : list Question)
    (quizId : string) (createdAt : Z) : Store -> Store * QuizResponse :=
  try_catch_quiz
    (let! _ := quizzes_doc_set quizId
                 {| quiz_title := title;
                    quiz_description := description;
                    quiz_questions := questions;
                    quiz_createdAt := createdAt |} in
     ret {| quiz_status := 201;
            quiz_body := QuizCreated "Quiz created successfully" quizId |})%handler
    (fun error => {| quiz_status := 500; quiz_body := QuizText "Internal Server Error" |}).

(** [(doc) => ({ quizId: doc.id, title: doc.data().title, description:
    doc.data().description })] *)
Definition quiz_summary (doc : string * Quiz) : QuizSummary :=
  {| summary_quizId := fst doc;
     summary_title := quiz_title (snd doc);
     summary_description := quiz_description (snd doc) |}.

Definition getAllQuizzes : Store -> Store * QuizResponse :=
  try_catch_quiz
    (let! docs := quizzes_get in
     match docs with
     | [] => ret {| quiz_status := 404; quiz_body := QuizMessage "No quizzes found" |}
     | _ => ret {| quiz_status := 200; quiz_body := QuizList (map quiz_summary docs) |}
     end)%handler
    (fun error => {| quiz_status := 500; quiz_body := QuizText "Internal Server Error" |}).

(** [quizId] is [req.params.quizId]; [quizDoc.exists] is false exactly
    when [quizDoc.data()] is [undefined]. *)
Definition getQuizById (quizId : string) : Store -> Store * QuizResponse :=
  try_catch_quiz
    (let! data := quizzes_doc_data quizId in
     match data with
     | None => ret {| quiz_status := 404; quiz_body := QuizMessage "Quiz not found" |}
     | Some quiz => ret {| quiz_status := 200; quiz_body := QuizData quiz |}
     end)%handler
    (fun error => {| quiz_status := 500; quiz_body := QuizText "Internal Server Error" |}).

(** ** The scoring rule in the words of the specification *)

(** "locate the question by [questionId]" *)
Fixpoint spec_locate_question (questions : list Question) (questionId : string)
  : option Question :=
  match questions with
  | [] => None
  | q :: rest =>
      if decide (question_questionId q = questionId) then Some q
      else spec_locate_question rest questionId
  end.

(** "locate the option flagged [isCorrect] among that question's options" *)
Fixpoint spec_locate_correct (options : list QuizOption) : option QuizOption :=
  match options with
  | [] => None
  | o :: rest => if option_isCorrect o then Some o else spec_locate_correct rest
  end.

(** "award one point if the submitted [selectedOptionId] equals the correct
    option's id" *)
Definition spec_award (questions : list Question) (answer : Answer) : Z :=
  match spec_locate_question questions (answer_questionId answer) with
  | None => 0
  | Some question =>
      match spec_locate_correct (question_options question) with
      | None => 0
      | Some correct =>
          if decide (answer_selectedOptionId answer = option_id correct) then 1 else 0
      end
  end.

(** The score is the number of points awarded over the submitted answers. *)
Fixpoint spec_score (questions : list Question) (answers : list Answer) : Z :=
  match answers with
  | [] => 0
  | answer :: rest => spec_award questions answer + spec_score questions rest
  end.

(** A question has exactly one option flagged [isCorrect]. *)
Definition one_correct_option (q : Question) : Prop :=
  length (List.filter option_isCorrect (question_options q)) = 1%nat.

(** The answer's [questionId] occurs in the quiz. *)
Definition valid_questionId (questions : list Question) (a : Answer) : Prop :=
  exists q, In q questions /\ question_questionId q = answer_questionId a.

(** ** Auxiliary notions used in the statements *)

(** What one answer adds to the running score. *)
Definition points (questions : list Question) (answer : Answer) : Z :=
  score_answer questions 0 answer.

(** ** Example data *)

(** The quiz of the handlers' documentation. *)
Definition example_q1 : Question :=
  {| question_questionId := "q1";
     question_text := "What is the capital of France?";
     question_type := "multiple-choice";
     question_options :=
       [ {| option_id := "o1"; option_text := "Paris"; option_isCorrect := true |};
         {| option_id := "o2"; option_text := "London"; option_isCorrect := false |} ] |}.

Definition example_quiz : Quiz :=
  {| quiz_title := "General Knowledge Quiz";
     quiz_description := "A fun quiz to test your knowledge.";
     quiz_questions := [example_q1];
     quiz_createdAt := 0 |}.

Definition example_db : Store :=
  {| quizzes := {[ "quiz1" := example_quiz ]};
     results := [];
     users := [("user123", {| user_quizzesTaken := None |})] |}.

Definition example_unscorable : Question :=
  {| question_questionId := "q2";
     question_text := "Which bin takes glass?";
     question_type := "multiple-choice";
     question_options :=
       [ {| option_id := "o1"; option_text := "Green"; option_isCorrect := false |};
         {| option_id := "o2"; option_text := "Blue"; option_isCorrect := false |} ] |}.

Definition example_two_correct : Question :=
  {| question_questionId := "q3";
     question_text := "Which of these is organic waste?";
     question_type := "multiple-choice";
     question_options :=
       [ {| option_id := "o1"; option_text := "Bottle"; option_isCorrect := false |};
         {| option_id := "o2"; option_text := "Peel"; option_isCorrect := true |};
         {| option_id := "o3"; option_text := "Leaves"; option_isCorrect := true |} ] |}.

Definition example_quiz2 : Quiz :=
  {| quiz_title := "Waste sorting";
     quiz_description := "Sort it right.";
     quiz_questions := [example_unscorable; example_two_correct];
     quiz_createdAt := 1 |}.

Definition example_db2 : Store :=
  {| quizzes := <[ "quiz2" := example_quiz2 ]> {[ "quiz1" := example_quiz ]};
     results := [];
     users := [("user123", {| user_quizzesTaken := None |})] |}.

(** [x] may stand before [y] in an array sorted by [compare]. *)
Definition precedes {A : Type} (compare : A -> A -> Z) (x y : A) : Prop :=
  compare x y <= 0.

(** "sum [score] across all UserHistoryEntry items" *)
Definition history_total (history : list HistoryEntry) : Z :=
  foldr (fun e acc => entry_score e + acc) 0 history.

(** The own property aggregation creates for a user document, if any. *)
Definition expected_score (doc : string * UserDoc) : option (string * UserScore) :=
  match user_quizzesTaken (snd doc) with
  | Some history =>
      if (0 <? Z.of_nat (length history)) && negb (inherited (fst doc))
      then Some (fst doc, {| totalScore := history_total history;
                             quizzesTaken := Z.of_nat (length history) |})
      else None
  | None => None
  end.

(** No user has any history. *)
Definition no_history (db : Store) : Prop :=
  forall userId data, In (userId, data) (users db) ->
    user_quizzesTaken data = None \/ user_quizzesTaken data = Some [].

(** The rows a leaderboard response carries. *)
Definition response_rows (r : Response) : list LeaderboardRow :=
  match body r with
  | Rows rows => rows
  | _ => []
  end.

Definition entry_of (kv : string * UserScore) : LeaderboardEntry :=
  {| lb_userId := fst kv;
     lb_totalScore := totalScore (snd kv);
     lb_quizzesTaken := quizzesTaken (snd kv) |}.

(** A user document whose id is a property name of [Object.prototype]. *)
Definition example_builtin_db : Store :=
  {| quizzes := {[ "quiz1" := example_quiz ]};
     results := [];
     users :=
       [ ("constructor",
          {| user_quizzesTaken :=
               Some [ {| entry_quizId := "quiz1"; entry_score := 1;
                         entry_completedAt := 0 |} ] |}) ] |}.

(** User A with 10 points over two quizzes, user B with 15 over one. *)
Definition example_ab_db : Store :=
  {| quizzes := {[ "quiz1" := example_quiz ]};
     results := [];
     users :=
       [ ("A", {| user_quizzesTaken :=
                    Some [ {| entry_quizId := "quiz1"; entry_score := 4;
                              entry_completedAt := 1 |};
                           {| entry_quizId := "quiz1"; entry_score := 6;
                              entry_completedAt := 2 |} ] |});
         ("B", {| user_quizzesTaken :=
                    Some [ {| entry_quizId := "quiz1"; entry_score := 15;
                              entry_completedAt := 3 |} ] |}) ] |}.

Definition example_no_users_db : Store :=
  {| quizzes := {[ "quiz1" := example_quiz ]}; results := []; users := [] |}.

(** ** Further notions used in the statements *)

(** The document stored under [userId] in a [users] collection. *)
Fixpoint user_document (docs : list (string * UserDoc)) (userId : string)
  : option UserDoc :=
  match docs with
  | [] => None
  | (k, d) :: rest => if String.eqb k userId then Some d else user_document rest userId
  end.


(** No user history holds the same entry twice. *)
Definition histories_nodup (db : Store) : Prop :=
  forall userId data history,
    In (userId, data) (users db) ->
    user_quizzesTaken data = Some history ->
    NoDup history.

(** The [quizzesTaken] array of a user document, empty when the field is
    missing. *)
Definition history_of (data : UserDoc) : list HistoryEntry :=
  match user_quizzesTaken data with
  | Some history => history
  | None => []
  end.

(** A second question carrying the [questionId] of [example_q1]. *)
Definition example_shadowed : Question :=
  {| question_questionId := "q1";
     question_text := "What is the capital of Spain?";
     question_type := "multiple-choice";
     question_options :=
       [ {| option_id := "o1"; option_text := "Lisbon"; option_isCorrect := false |};
         {| option_id := "o2"; option_text := "Madrid"; option_isCorrect := true |} ] |}.

Definition example_quiz3 : Quiz :=
  {| quiz_title := "Capitals";
     quiz_description := "Two questions, one id.";
     quiz_questions := [example_q1; example_shadowed];
     quiz_createdAt := 2 |}.

Definition example_db3 : Store :=
  {| quizzes := <[ "quiz3" := example_quiz3 ]> {[ "quiz1" := example_quiz ]};
     results := [];
     users := [("user123", {| user_quizzesTaken := None |})] |}.

(** Three users, two of them tied at 5 points. *)
Definition example_tie_db : Store :=
  {| quizzes := {[ "quiz1" := example_quiz ]};
     results := [];
     users :=
       [ ("carol", {| user_quizzesTaken :=
                        Some [ {| entry_quizId := "quiz1"; entry_score := 5;
                                  entry_completedAt := 1 |} ] |});
         ("alice", {| user_quizzesTaken :=
                        Some [ {| entry_quizId := "quiz1"; entry_score := 2;
                                  entry_completedAt := 2 |};
                               {| entry_quizId := "quiz1"; entry_score := 3;
                                  entry_completedAt := 3 |} ] |});
         ("bob", {| user_quizzesTaken :=
                      Some [ {| entry_quizId := "quiz1"; entry_score := 7;
                                entry_completedAt := 4 |} ] |}) ] |}.

(** The documents [db.collection("quizzes").get()] returns. *)
Definition quiz_documents (db : Store) : list (string * Quiz) :=
  Array_sort by_document_id (map_to_list (quizzes db)).

(** * Properties of the scoring loop *)

Section Scoring.

Variable questions : list Question.

Lemma score_answer_points score answer :
  score_answer questions score answer = score + points questions answer.
Proof.
  unfold points, score_answer.
  destruct (find_question questions answer) as [question|]; [|lia].
  destruct (find_correctOption question) as [correctOption|]; [|lia].
  destruct (String.eqb _ _); lia.
Qed.

Lemma points_range answer : 0 <= points questions answer <= 1.
Proof.
  unfold points, score_answer.
  destruct (find_question questions answer) as [question|]; [|lia].
  destruct (find_correctOption question) as [correctOption|]; [|lia].
  destruct (String.eqb _ _); lia.
Qed.

Lemma fold_score_acc answers : forall score,
  fold_left (score_answer questions) answers score
  = score + score_loop questions answers.
Proof.
  unfold score_loop.
  induction answers as [|a rest IH]; intros score; simpl.
  - lia.
  - rewrite IH, (IH (score_answer questions 0 a)).
    rewrite (score_answer_points score a), (score_answer_points 0 a). lia.
Qed.

Lemma score_loop_cons a answers :
  score_loop questions (a :: answers) = points questions a + score_loop questions answers.
Proof.
  unfold score_loop at 1. simpl. rewrite fold_score_acc.
  rewrite score_answer_points. lia.
Qed.

Lemma score_loop_app l1 l2 :
  score_loop questions (l1 ++ l2) = score_loop questions l1 + score_loop questions l2.
Proof.
  unfold score_loop at 1. rewrite fold_left_app.
  fold (score_loop questions l1). apply fold_score_acc.
Qed.

Lemma score_loop_insert pre a post :
  score_loop questions (pre ++ a :: post)
  = score_loop questions (pre ++ post) + points questions a.
Proof. rewrite !score_loop_app, score_loop_cons. lia. Qed.

Lemma score_loop_bounds answers :
  0 <= score_loop questions answers <= Z.of_nat (length answers).
Proof.
  induction answers as [|a rest IH].
  - unfold score_loop. simpl. lia.
  - rewrite score_loop_cons. pose proof (points_range a). simpl length. lia.
Qed.

Lemma find_question_spec answer :
  find_question questions answer
  = spec_locate_question questions (answer_questionId answer).
Proof.
  unfold find_question.
  induction questions as [|q rest IH]; simpl; [reflexivity|].
  destruct (String.eqb_spec (question_questionId q) (answer_questionId answer)) as [E|E];
    destruct (decide _); try contradiction; auto.
Qed.

Lemma find_correctOption_spec question :
  find_correctOption question = spec_locate_correct (question_options question).
Proof.
  unfold find_correctOption.
  induction (question_options question) as [|o rest IH]; simpl; [reflexivity|].
  destruct (option_isCorrect o); auto.
Qed.

Lemma points_spec answer : points questions answer = spec_award questions answer.
Proof.
  unfold points, score_answer, spec_award.
  rewrite find_question_spec.
  destruct (spec_locate_question _ _) as [question|]; [|reflexivity].
  rewrite find_correctOption_spec.
  destruct (spec_locate_correct _) as [correct|]; [|reflexivity].
  destruct (String.eqb_spec (option_id correct) (answer_selectedOptionId answer));
    destruct (decide _); try reflexivity; congruence.
Qed.

Lemma score_loop_spec answers :
  score_loop questions answers = spec_score questions answers.
Proof.
  induction answers as [|a rest IH]; [reflexivity|].
  rewrite score_loop_cons, IH, points_spec. reflexivity.
Qed.

Lemma find_question_none answer :
  (forall q, In q questions -> question_questionId q <> answer_questionId answer) ->
  find_question questions answer = None.
Proof.
  intros H. unfold find_question.
  destruct (List.find _ _) as [q|] eqn:E; [|reflexivity].
  apply find_some in E as [Hin Heq].
  apply String.eqb_eq in Heq. exfalso. exact (H q Hin Heq).
Qed.

Lemma find_question_in answer q :
  find_question questions answer = Some q ->
  In q questions /\ question_questionId q = answer_questionId answer.
Proof.
  unfold find_question. intros E. apply find_some in E as [Hin Heq].
  apply String.eqb_eq in Heq. auto.
Qed.

End Scoring.

Lemma find_correctOption_none q :
  (forall o, In o (question_options q) -> option_isCorrect o = false) ->
  find_correctOption q = None.
Proof.
  intros H. unfold find_correctOption.
  destruct (List.find _ _) as [o|] eqn:E; [|reflexivity].
  apply find_some in E as [Hin Hc]. rewrite (H o Hin) in Hc. discriminate.
Qed.

(** The first flagged option is the one [find] returns. *)
Lemma find_correctOption_first q before first after :
  question_options q = before ++ first :: after ->
  (forall o, In o before -> option_isCorrect o = false) ->
  option_isCorrect first = true ->
  find_correctOption q = Some first.
Proof.
  unfold find_correctOption. intros -> Hb Hf.
  induction before as [|o before IH]; simpl.
  - rewrite Hf. reflexivity.
  - rewrite (Hb o (or_introl eq_refl)). apply IH.
    intros o' Ho'. apply Hb. right. exact Ho'.
Qed.

(** With the quiz in the store, [calculateScore] returns the loop's score and
    leaves the store as it was. *)
Lemma calculateScore_found db quizId quiz answers :
  quizzes db !! quizId = Some quiz ->
  calculateScore answers quizId db = (db, Ok (score_loop (quiz_questions quiz) answers)).
Proof.
  intros H. unfold calculateScore, bind, quizzes_doc_data, ret. rewrite H. reflexivity.
Qed.

Lemma calculateScore_missing db quizId answers :
  quizzes db !! quizId = None ->
  exists e, calculateScore answers quizId db = (db, Throw e).
Proof.
  intros H. unfold calculateScore, bind, quizzes_doc_data, throw. rewrite H. eauto.
Qed.


(** * Scoring claims *)

(** C1: for a quiz in the store, [calculateScore] returns the score the
    specification's rule describes: going through the submitted answers, it
    looks up the question with the answer's [questionId], takes the option
    flagged [isCorrect] there, and adds 1 when [selectedOptionId] is that
    option's id and 0 otherwise.  For a quiz whose only question is [q1]
    with correct option [o1], answering [o1] scores 1 and answering [o2]
    scores 0. *)
Theorem C1_calculateScore_follows_scoring_rule db quizId quiz :
  quizzes db !! quizId = Some quiz ->
  (forall answers,
      calculateScore answers quizId db
      = (db, Ok (spec_score (quiz_questions quiz) answers)))
  /\ (forall answers a,
         score_loop (quiz_questions quiz) (answers ++ [a])
         = score_loop (quiz_questions quiz) answers
           + spec_award (quiz_questions quiz) a
         /\ (spec_award (quiz_questions quiz) a = 0
             \/ spec_award (quiz_questions quiz) a = 1))
  /\ (forall q,
         quiz_questions quiz = [q] ->
         question_questionId q = "q1" ->
         (exists o, In o (question_options q) /\ option_id o = "o1") ->
         (forall o, In o (question_options q) ->
                    (option_isCorrect o = true <-> option_id o = "o1")) ->
         calculateScore [ {| answer_questionId := "q1";
                             answer_selectedOptionId := "o1" |} ] quizId db
         = (db, Ok 1)
         /\ calculateScore [ {| answer_questionId := "q1";
                                answer_selectedOptionId := "o2" |} ] quizId db
            = (db, Ok 0)).
Proof.
  intros Hquiz. split; [|split].
  - intros answers. rewrite (calculateScore_found _ _ _ _ Hquiz).
    rewrite score_loop_spec. reflexivity.
  - intros answers a. split.
    + rewrite score_loop_app, score_loop_cons, points_spec.
      change (score_loop (quiz_questions quiz) []) with 0. lia.
    + rewrite <- points_spec. pose proof (points_range (quiz_questions quiz) a). lia.
  - intros q Hq Hid [o [Hin Ho]] Hflag.
    rewrite !(calculateScore_found _ _ _ _ Hquiz), Hq.
    assert (Hc : exists c, find_correctOption q = Some c /\ option_id c = "o1").
    { unfold find_correctOption.
      destruct (List.find option_isCorrect (question_options q)) as [c|] eqn:E.
      - apply find_some in E as [Hcin Hcc]. exists c. split; [reflexivity|].
        apply (Hflag c Hcin). exact Hcc.
      - exfalso. pose proof (find_none _ _ E o Hin) as Hn.
        apply (Hflag o Hin) in Ho. congruence. }
    destruct Hc as [c [Hfind Hcid]].
    unfold score_loop, score_answer, find_question. simpl.
    rewrite Hid. simpl. rewrite Hfind, Hcid. simpl. split; reflexivity.
Qed.

Lemma C1_calculateScore_follows_scoring_rule_witness :
  calculateScore [ {| answer_questionId := "q1"; answer_selectedOptionId := "o1" |} ]
                 "quiz1" example_db = (example_db, Ok 1)
  /\ calculateScore [ {| answer_questionId := "q1"; answer_selectedOptionId := "o2" |} ]
                    "quiz1" example_db = (example_db, Ok 0).
Proof.
  destruct (C1_calculateScore_follows_scoring_rule example_db "quiz1" example_quiz eq_refl)
    as (_ & _ & H).
  apply (H example_q1); try reflexivity.
  - eexists. split; [left; reflexivity | reflexivity].
  - intros o [<- | [<- | []]]; simpl; split; intros; congruence.
Defined.

(** C3, as stated, fails: two answers to the same question are both
    scored, so one question can yield a score of 2. *)
Lemma C3_counterexample :
  ~ (forall db quizId quiz answers,
        quizzes db !! quizId = Some quiz ->
        Forall one_correct_option (quiz_questions quiz) ->
        Forall (valid_questionId (quiz_questions quiz)) answers ->
        exists score,
          calculateScore answers quizId db = (db, Ok score)
          /\ 0 <= score <= Z.of_nat (length (quiz_questions quiz))).
Proof.
  intros H.
  pose (a := {| answer_questionId := "q1"; answer_selectedOptionId := "o1" |}).
  destruct (H example_db "quiz1" example_quiz [a; a] eq_refl) as [score [Hs Hb]].
  - repeat constructor.
  - repeat constructor; exists example_q1; split; simpl; auto.
  - vm_compute in Hs. inversion Hs; subst score. simpl in Hb. lia.
Qed.

(** C3, amended: for a quiz with N questions, each with exactly one option
    flagged [isCorrect], and answers whose [questionId]s are pairwise
    distinct and all occur in the quiz, the score is an integer between 0
    and N. *)
Theorem C3_score_within_question_count db quizId quiz answers :
  quizzes db !! quizId = Some quiz ->
  Forall one_correct_option (quiz_questions quiz) ->
  Forall (valid_questionId (quiz_questions quiz)) answers ->
  NoDup (map answer_questionId answers) ->
  exists score,
    calculateScore answers quizId db = (db, Ok score)
    /\ 0 <= score <= Z.of_nat (length (quiz_questions quiz)).
Proof.
  intros Hquiz _ Hvalid Hnodup.
  exists (score_loop (quiz_questions quiz) answers).
  split; [apply calculateScore_found; exact Hquiz|].
  pose proof (score_loop_bounds (quiz_questions quiz) answers) as [Hlo Hhi].
  split; [exact Hlo|].
  assert (Hlen : (length answers <= length (quiz_questions quiz))%nat).
  { rewrite <- (length_map answer_questionId answers).
    rewrite <- (length_map question_questionId (quiz_questions quiz)).
    apply NoDup_incl_length; [apply NoDup_ListNoDup; exact Hnodup|].
    intros k Hk. apply in_map_iff in Hk as [a [<- Ha]].
    rewrite Forall_forall in Hvalid.
    destruct (Hvalid a) as [q [Hq Hid]].
    - apply list_elem_of_In. exact Ha.
    - rewrite <- Hid. apply in_map. exact Hq. }
  lia.
Qed.

Lemma C3_score_within_question_count_witness :
  exists score,
    calculateScore [ {| answer_questionId := "q1"; answer_selectedOptionId := "o1" |} ]
                   "quiz1" example_db = (example_db, Ok score)
    /\ 0 <= score <= 1.
Proof.
  apply (C3_score_within_question_count example_db "quiz1" example_quiz
           [ {| answer_questionId := "q1"; answer_selectedOptionId := "o1" |} ]).
  - reflexivity.
  - repeat constructor.
  - repeat constructor. exists example_q1. split; simpl; auto.
  - simpl. apply NoDup_singleton.
Defined.

(** C4: an answer whose [questionId] matches no question of the quiz adds
    nothing to the score and raises no error: scoring succeeds, with the same
    score as when that answer is left out. *)
Theorem C4_unmatched_questionId_ignored db quizId quiz pre a post :
  quizzes db !! quizId = Some quiz ->
  (forall q, In q (quiz_questions quiz) ->
             question_questionId q <> answer_questionId a) ->
  exists score,
    calculateScore (pre ++ a :: post) quizId db = (db, Ok score)
    /\ calculateScore (pre ++ post) quizId db = (db, Ok score).
Proof.
  intros Hquiz Hnone.
  exists (score_loop (quiz_questions quiz) (pre ++ post)).
  rewrite !(calculateScore_found _ _ _ _ Hquiz). split; [|reflexivity].
  rewrite score_loop_insert. unfold points, score_answer.
  rewrite (find_question_none _ _ Hnone). do 3 f_equal. lia.
Qed.

Lemma C4_unmatched_questionId_ignored_witness :
  exists score,
    calculateScore
      ([ {| answer_questionId := "q1"; answer_selectedOptionId := "o1" |} ]
         ++ {| answer_questionId := "q9"; answer_selectedOptionId := "o1" |} :: [])
      "quiz1" example_db = (example_db, Ok score)
    /\ calculateScore
         ([ {| answer_questionId := "q1"; answer_selectedOptionId := "o1" |} ] ++ [])
         "quiz1" example_db = (example_db, Ok score).
Proof.
  apply (C4_unmatched_questionId_ignored example_db "quiz1" example_quiz).
  - reflexivity.
  - intros q [<- | []]. simpl. discriminate.
Defined.

(** C5: when the question an answer is scored against has no option flagged
    [isCorrect], the answer adds 0 whatever [selectedOptionId] it carries,
    and scoring raises no error. *)
Theorem C5_question_without_correct_option db quizId quiz q pre a post :
  quizzes db !! quizId = Some quiz ->
  find_question (quiz_questions quiz) a = Some q ->
  (forall o, In o (question_options q) -> option_isCorrect o = false) ->
  exists score,
    calculateScore (pre ++ a :: post) quizId db = (db, Ok score)
    /\ calculateScore (pre ++ post) quizId db = (db, Ok score).
Proof.
  intros Hquiz Hfind Hnone.
  exists (score_loop (quiz_questions quiz) (pre ++ post)).
  rewrite !(calculateScore_found _ _ _ _ Hquiz). split; [|reflexivity].
  rewrite score_loop_insert. unfold points, score_answer.
  rewrite Hfind, (find_correctOption_none _ Hnone). do 3 f_equal. lia.
Qed.

Lemma C5_question_without_correct_option_witness :
  exists score,
    calculateScore
      ([] ++ {| answer_questionId := "q2"; answer_selectedOptionId := "o1" |} :: [])
      "quiz2" example_db2 = (example_db2, Ok score)
    /\ calculateScore ([] ++ []) "quiz2" example_db2 = (example_db2, Ok score).
Proof.
  apply (C5_question_without_correct_option example_db2 "quiz2" example_quiz2
           example_unscorable).
  - reflexivity.
  - reflexivity.
  - intros o [<- | [<- | []]]; reflexivity.
Defined.

(** C10: when the question an answer is scored against has several options
    flagged [isCorrect], the answer earns the point exactly when its
    [selectedOptionId] is the id of the first flagged option; an answer that
    selects a later flagged option (one with another id) adds 0. *)
Theorem C10_only_first_correct_option_scores
    db quizId quiz q a before first after :
  quizzes db !! quizId = Some quiz ->
  find_question (quiz_questions quiz) a = Some q ->
  question_options q = before ++ first :: after ->
  (forall o, In o before -> option_isCorrect o = false) ->
  option_isCorrect first = true ->
  (forall pre post,
      calculateScore (pre ++ a :: post) quizId db
      = (db, Ok (score_loop (quiz_questions quiz) (pre ++ post)
                 + (if decide (answer_selectedOptionId a = option_id first)
                    then 1 else 0))))
  /\ (forall later pre post,
         In later after ->
         option_isCorrect later = true ->
         option_id later <> option_id first ->
         answer_selectedOptionId a = option_id later ->
         calculateScore (pre ++ a :: post) quizId db
         = calculateScore (pre ++ post) quizId db).
Proof.
  intros Hquiz Hfind Hopts Hbefore Hfirst.
  assert (Hpoints : points (quiz_questions quiz) a
                    = if decide (answer_selectedOptionId a = option_id first)
                      then 1 else 0).
  { unfold points, score_answer.
    rewrite Hfind, (find_correctOption_first _ _ _ _ Hopts Hbefore Hfirst).
    destruct (String.eqb_spec (option_id first) (answer_selectedOptionId a));
      destruct (decide _); try reflexivity; congruence. }
  split.
  - intros pre post. rewrite (calculateScore_found _ _ _ _ Hquiz).
    rewrite score_loop_insert, Hpoints. reflexivity.
  - intros later pre post _ _ Hne Hsel.
    rewrite !(calculateScore_found _ _ _ _ Hquiz).
    rewrite score_loop_insert, Hpoints.
    destruct (decide _) as [E|E]; [congruence|]. do 3 f_equal. lia.
Qed.

Lemma C10_only_first_correct_option_scores_witness :
  calculateScore
    ([] ++ {| answer_questionId := "q3"; answer_selectedOptionId := "o2" |} :: [])
    "quiz2" example_db2 = (example_db2, Ok (0 + 1))
  /\ calculateScore
       ([] ++ {| answer_questionId := "q3"; answer_selectedOptionId := "o3" |} :: [])
       "quiz2" example_db2
     = calculateScore ([] ++ []) "quiz2" example_db2.
Proof.
  split.
  - apply (C10_only_first_correct_option_scores example_db2 "quiz2" example_quiz2
             example_two_correct
             {| answer_questionId := "q3"; answer_selectedOptionId := "o2" |}
             [ {| option_id := "o1"; option_text := "Bottle"; option_isCorrect := false |} ]
             {| option_id := "o2"; option_text := "Peel"; option_isCorrect := true |}
             [ {| option_id := "o3"; option_text := "Leaves"; option_isCorrect := true |} ]);
      try reflexivity.
    intros o [<- | []]; reflexivity.
  - apply (C10_only_first_correct_option_scores example_db2 "quiz2" example_quiz2
             example_two_correct
             {| answer_questionId := "q3"; answer_selectedOptionId := "o3" |}
             [ {| option_id := "o1"; option_text := "Bottle"; option_isCorrect := false |} ]
             {| option_id := "o2"; option_text := "Peel"; option_isCorrect := true |}
             [ {| option_id := "o3"; option_text := "Leaves"; option_isCorrect := true |} ])
      with (later := {| option_id := "o3"; option_text := "Leaves";
                        option_isCorrect := true |});
      try reflexivity.
    + intros o [<- | []]; reflexivity.
    + left; reflexivity.
    + simpl. discriminate.
Defined.

(** * Submission *)

Lemma submitQuizAnswers_missing_quiz quizId userId answers submittedAt completedAt db :
  quizzes db !! quizId = None ->
  submitQuizAnswers quizId userId answers submittedAt completedAt db
  = (db, {| status := 500; body := Text "Internal Server Error" |}).
Proof.
  intros H. unfold submitQuizAnswers, try_catch, bind.
  destruct (calculateScore_missing db quizId answers H) as [e ->]. reflexivity.
Qed.

Lemma update_doc_some userId f docs :
  In userId (map fst docs) -> is_Some (update_doc userId f docs).
Proof.
  induction docs as [|[k d] rest IH]; simpl; [tauto|].
  intros [->|Hin].
  - rewrite String.eqb_refl. eauto.
  - destruct (String.eqb k userId); [eauto|].
    destruct (IH Hin) as [rest' ->]. eauto.
Qed.

Lemma update_doc_none userId f docs :
  ~ In userId (map fst docs) -> update_doc userId f docs = None.
Proof.
  induction docs as [|[k d] rest IH]; simpl; [reflexivity|].
  intros Hn. destruct (String.eqb_spec k userId) as [E|E]; [tauto|].
  rewrite IH; tauto.
Qed.

(** With the quiz and the user document both present, the handler answers
    200 with the message and the computed score. *)
Lemma submitQuizAnswers_ok quizId userId answers submittedAt completedAt db quiz :
  quizzes db !! quizId = Some quiz ->
  In userId (map fst (users db)) ->
  exists db',
    submitQuizAnswers quizId userId answers submittedAt completedAt db
    = (db', {| status := 200;
               body := SubmitResult "Quiz answers submitted successfully"
                         (score_loop (quiz_questions quiz) answers) |})
    /\ quizzes db' = quizzes db
    /\ results db'
       = results db
         ++ [ {| submission_quizId := quizId;
                 submission_userId := userId;
                 submission_answers := answers;
                 submission_score := score_loop (quiz_questions quiz) answers;
                 submission_submittedAt := submittedAt |} ].
Proof.
  intros Hquiz Huser. unfold submitQuizAnswers, try_catch, bind.
  rewrite (calculateScore_found _ _ _ _ Hquiz).
  unfold results_add, users_doc_update_quizzesTaken. simpl.
  match goal with |- context [update_doc ?u ?f ?d] =>
    destruct (update_doc_some u f d Huser) as [docs ->] end.
  eexists. repeat split.
Qed.

(** Without a user document the [update] rejects after the result has been
    added, and the handler answers 500. *)
Lemma submitQuizAnswers_missing_user quizId userId answers submittedAt completedAt db quiz :
  quizzes db !! quizId = Some quiz ->
  ~ In userId (map fst (users db)) ->
  exists db',
    submitQuizAnswers quizId userId answers submittedAt completedAt db
    = (db', {| status := 500; body := Text "Internal Server Error" |})
    /\ length (results db') = S (length (results db)).
Proof.
  intros Hquiz Huser. unfold submitQuizAnswers, try_catch, bind.
  rewrite (calculateScore_found _ _ _ _ Hquiz).
  unfold results_add, users_doc_update_quizzesTaken. simpl.
  rewrite (update_doc_none _ _ _ Huser).
  eexists. split; [reflexivity|]. simpl. rewrite length_app. simpl. lia.
Qed.

(** * Submission claim *)

(** C2: a submission to a quiz id that names no quiz is answered with the
    generic 500, not with a 404: [calculateScore] reads [.questions] off the
    [undefined] that [data()] returns, and the handler's [catch] turns the
    [TypeError] into "Internal Server Error". *)
Theorem C2_submit_unknown_quiz_answers_500 :
  quizzes example_db !! "no-such-quiz" = None
  /\ submitQuizAnswers "no-such-quiz" "user123"
       [ {| answer_questionId := "q1"; answer_selectedOptionId := "o1" |} ] 0 0
       example_db
     = (example_db, {| status := 500; body := Text "Internal Server Error" |}).
Proof.
  split; [reflexivity|].
  apply submitQuizAnswers_missing_quiz. reflexivity.
Qed.

(** * Array.prototype.sort *)

Section ArraySort.

Context {A : Type}.
Variable compare : A -> A -> Z.


Hypothesis compare_total : forall x y, 0 < compare x y -> compare y x <= 0.
Hypothesis compare_trans :
  forall x y z, precedes compare x y -> precedes compare y z -> precedes compare x z.

Lemma sort_insert_perm x l : sort_insert compare x l ≡ₚ x :: l.
Proof.
  induction l as [|y l IH]; simpl; [reflexivity|].
  destruct (compare x y <=? 0); [reflexivity|].
  rewrite IH. apply perm_swap.
Qed.

Lemma Array_sort_perm l : Array_sort compare l ≡ₚ l.
Proof.
  unfold Array_sort.
  induction l as [|x l IH]; simpl; [reflexivity|].
  rewrite sort_insert_perm, IH. reflexivity.
Qed.

Lemma sort_insert_sorted x l :
  StronglySorted (precedes compare) l ->
  StronglySorted (precedes compare) (sort_insert compare x l).
Proof.
  induction 1 as [|y l Hl IH Hy]; simpl.
  - repeat constructor.
  - destruct (Z.leb_spec (compare x y) 0) as [Hxy|Hxy].
    + constructor; [constructor; assumption|].
      constructor; [exact Hxy|].
      eapply Forall_impl; [exact Hy|].
      intros z Hz. exact (compare_trans _ _ _ Hxy Hz).
    + constructor; [exact IH|].
      rewrite sort_insert_perm. constructor; [|exact Hy].
      apply compare_total. exact Hxy.
Qed.

Lemma Array_sort_sorted l : StronglySorted (precedes compare) (Array_sort compare l).
Proof.
  unfold Array_sort.
  induction l as [|x l IH]; simpl; [constructor|].
  apply sort_insert_sorted. exact IH.
Qed.

Lemma StronglySorted_lookup_lt (l : list A) : forall (i j : nat) x y,
  StronglySorted (precedes compare) l ->
  l !! i = Some x -> l !! j = Some y -> (i < j)%nat -> precedes compare x y.
Proof.
  induction l as [|z l IH]; intros i j x y Hs Hi Hj Hlt; [discriminate|].
  apply StronglySorted_inv in Hs as [Hs Hall].
  destruct j as [|j]; [lia|].
  destruct i as [|i]; simpl in *.
  - inversion Hi; subst z.
    rewrite Forall_forall in Hall. apply Hall.
    apply list_elem_of_lookup. eauto.
  - apply (IH i j); auto. lia.
Qed.

End ArraySort.

(** * The [userScores] object *)

Lemma Object_keys_order (v : UserScore) :
  Object_keys [("bob", v); ("10", v); ("007", v); ("2", v); ("alice", v)]
  = ["2"; "10"; "bob"; "007"; "alice"].
Proof. reflexivity. Qed.

Lemma Object_keys_perm (o : JsObject) : Object_keys o ≡ₚ map fst o.
Proof.
  unfold Object_keys.
  rewrite (Array_sort_perm _ _).
  induction (map fst o) as [|k names IH]; [reflexivity|].
  simpl. destruct (array_index k) as [n|]; simpl.
  - rewrite IH. reflexivity.
  - rewrite <- IH at 3. symmetry. apply Permutation_middle.
Qed.

Lemma own_lookup_listed (o : JsObject) k :
  In k (map fst o) -> is_Some (own_lookup o k).
Proof.
  induction o as [|[k' v'] o IH]; simpl; [tauto|].
  intros [->|Hin].
  - rewrite String.eqb_refl. eauto.
  - destruct (String.eqb k' k); [eauto|auto].
Qed.

Lemma own_lookup_unique (o : JsObject) k v :
  NoDup (map fst o) -> In (k, v) o -> own_lookup o k = Some v.
Proof.
  induction o as [|[k' v'] o IH]; simpl; [tauto|].
  intros Hnd Hin. apply NoDup_cons in Hnd as [Hfresh Hnd].
  destruct Hin as [[= -> ->]|Hin].
  - rewrite String.eqb_refl. reflexivity.
  - destruct (String.eqb_spec k' k) as [->|_]; [|auto].
    exfalso. apply Hfresh, list_elem_of_In, in_map_iff. exists (k, v). auto.
Qed.

Lemma own_lookup_fresh (o : JsObject) k :
  ~ In k (map fst o) -> own_lookup o k = None.
Proof.
  induction o as [|[k' v'] o IH]; simpl; [reflexivity|].
  intros Hn. destruct (String.eqb_spec k' k); [tauto|]. apply IH. tauto.
Qed.

Lemma own_lookup_last (o : JsObject) k v :
  ~ In k (map fst o) -> own_lookup (o ++ [(k, v)]) k = Some v.
Proof.
  induction o as [|[k' v'] o IH]; simpl.
  - rewrite String.eqb_refl. reflexivity.
  - intros Hn. destruct (String.eqb_spec k' k); [tauto|]. apply IH. tauto.
Qed.

Lemma set_property_fresh (o : JsObject) k v :
  ~ In k (map fst o) -> set_property o k v = o ++ [(k, v)].
Proof.
  induction o as [|[k' v'] o IH]; simpl; [reflexivity|].
  intros Hn. destruct (String.eqb_spec k' k); [tauto|]. rewrite IH; tauto.
Qed.

Lemma set_property_last (o : JsObject) k v v' :
  ~ In k (map fst o) -> set_property (o ++ [(k, v)]) k v' = o ++ [(k, v')].
Proof.
  induction o as [|[k0 v0] o IH]; simpl.
  - rewrite String.eqb_refl. reflexivity.
  - intros Hn. destruct (String.eqb_spec k0 k); [tauto|]. rewrite IH; tauto.
Qed.

Lemma own_lookup_set_same (o : JsObject) k v :
  own_lookup (set_property o k v) k = Some v.
Proof.
  induction o as [|[k' v'] o IH]; simpl.
  - rewrite String.eqb_refl. reflexivity.
  - destruct (String.eqb_spec k' k) as [E|E]; simpl.
    + rewrite E, String.eqb_refl. reflexivity.
    + destruct (String.eqb_spec k' k); [contradiction|]. exact IH.
Qed.

(** ** Aggregation never throws *)

Lemma forEach_invariant {A S : Type} (callback : S -> A -> result S) (P : S -> Prop) :
  (forall s x, P s -> exists s', callback s x = Ok s' /\ P s') ->
  forall array s, P s -> exists s', forEach callback array s = Ok s' /\ P s'.
Proof.
  intros Hstep array.
  induction array as [|x rest IH]; intros s Hs; simpl; [eauto|].
  destruct (Hstep s x Hs) as [s' [-> Hs']]. apply IH. exact Hs'.
Qed.

Lemma add_quiz_ok userId userScores quiz :
  truthy (get_property userScores userId) = true ->
  exists userScores',
    add_quiz userId userScores quiz = Ok userScores'
    /\ truthy (get_property userScores' userId) = true.
Proof.
  unfold add_quiz. intros Ht.
  destruct (get_property userScores userId) as [|v|] eqn:E; [discriminate| |].
  - eexists. split; [reflexivity|].
    unfold get_property. rewrite own_lookup_set_same. reflexivity.
  - exists userScores. rewrite E. auto.
Qed.

Lemma aggregate_doc_ok userScores doc :
  exists userScores', aggregate_doc userScores doc = Ok userScores'.
Proof.
  unfold aggregate_doc.
  destruct (user_quizzesTaken doc.2) as [history|]; [|eauto].
  destruct (0 <? Z.of_nat (length history)); [|eauto].
  edestruct (forEach_invariant (add_quiz doc.1)
               (fun o => truthy (get_property o doc.1) = true)) as [o' [H _]];
    [intros s x; apply add_quiz_ok | | exists o'; exact H].
  destruct (truthy (get_property userScores doc.1)) eqn:E; simpl; [exact E|].
  unfold get_property. rewrite own_lookup_set_same. reflexivity.
Qed.

Lemma aggregate_ok docs userScores :
  exists userScores', forEach aggregate_doc docs userScores = Ok userScores'.
Proof.
  destruct (forEach_invariant aggregate_doc (fun _ => True)) with (array := docs)
    (s := userScores) as [o' [H _]]; [|exact I|eauto].
  intros s x _. destruct (aggregate_doc_ok s x) as [s' ->]. eauto.
Qed.

(** ** What aggregation computes *)

Lemma add_quiz_own (o : JsObject) k history : forall v,
  ~ In k (map fst o) ->
  forEach (add_quiz k) history (o ++ [(k, v)])
  = Ok (o ++ [(k, {| totalScore := totalScore v + history_total history;
                     quizzesTaken := quizzesTaken v + Z.of_nat (length history) |})]).
Proof.
  induction history as [|e rest IH]; intros v Hk.
  - simpl. destruct v as [t n]. simpl. do 4 f_equal; f_equal; lia.
  - cbn [forEach]. unfold add_quiz at 1, get_property.
    rewrite (own_lookup_last _ _ _ Hk), (set_property_last _ _ _ _ Hk).
    rewrite (IH _ Hk). cbn [totalScore quizzesTaken history_total foldr length].
    do 4 f_equal; f_equal; fold (history_total rest); lia.
Qed.

Lemma add_quiz_builtin (o : JsObject) k history :
  own_lookup o k = None -> inherited k = true ->
  forEach (add_quiz k) history o = Ok o.
Proof.
  intros Hown Hinh.
  induction history as [|e rest IH]; [reflexivity|].
  cbn [forEach]. unfold add_quiz at 1, get_property. rewrite Hown, Hinh. exact IH.
Qed.

Lemma aggregate_doc_fresh (o : JsObject) doc :
  ~ In (fst doc) (map fst o) ->
  aggregate_doc o doc
  = Ok (o ++ match expected_score doc with Some kv => [kv] | None => [] end).
Proof.
  intros Hk. unfold aggregate_doc, expected_score.
  destruct (user_quizzesTaken (snd doc)) as [history|]; [|rewrite app_nil_r; reflexivity].
  destruct (0 <? Z.of_nat (length history)); simpl;
    [|rewrite app_nil_r; reflexivity].
  unfold get_property at 1. rewrite (own_lookup_fresh _ _ Hk).
  destruct (inherited (fst doc)) eqn:Hinh; simpl.
  - rewrite app_nil_r. apply add_quiz_builtin; [apply own_lookup_fresh|]; assumption.
  - rewrite (set_property_fresh _ _ _ Hk), (add_quiz_own _ _ _ _ Hk). reflexivity.
Qed.

Lemma expected_score_key doc kv : expected_score doc = Some kv -> fst kv = fst doc.
Proof.
  unfold expected_score.
  destruct (user_quizzesTaken (snd doc)); [|discriminate].
  destruct (_ && _); [|discriminate]. intros [= <-]. reflexivity.
Qed.

Lemma aggregate_unique docs : forall (o : JsObject),
  NoDup (map fst docs) ->
  (forall k, In k (map fst docs) -> ~ In k (map fst o)) ->
  forEach aggregate_doc docs o = Ok (o ++ omap expected_score docs).
Proof.
  induction docs as [|doc rest IH]; intros o Hnd Hfresh.
  - simpl. rewrite app_nil_r. reflexivity.
  - cbn [forEach]. rewrite aggregate_doc_fresh by (apply Hfresh; left; reflexivity).
    simpl in Hnd. apply NoDup_cons in Hnd as [Hdoc Hnd].
    rewrite IH; [| exact Hnd |].
    + cbn [omap list_omap]. destruct (expected_score doc); simpl.
      * rewrite <- app_assoc. reflexivity.
      * rewrite app_nil_r. reflexivity.
    + intros k Hk Hin. rewrite map_app, in_app_iff in Hin.
      destruct Hin as [Hin|Hin].
      * apply (Hfresh k); [right; exact Hk | exact Hin].
      * destruct (expected_score doc) as [kv|] eqn:E; [|destruct Hin].
        destruct Hin as [Hin|[]]. simpl in Hin.
        rewrite (expected_score_key _ _ E) in Hin. subst k.
        apply Hdoc, list_elem_of_In, Hk.
Qed.

Lemma aggregate_no_history docs : forall (o : JsObject),
  (forall userId data, In (userId, data) docs ->
     user_quizzesTaken data = None \/ user_quizzesTaken data = Some []) ->
  forEach aggregate_doc docs o = Ok o.
Proof.
  induction docs as [|[userId data] rest IH]; intros o H; [reflexivity|].
  cbn [forEach]. unfold aggregate_doc at 1. simpl.
  destruct (H userId data (or_introl eq_refl)) as [-> | ->]; simpl;
    apply IH; intros u d Hin; apply (H u d); right; exact Hin.
Qed.

(** ** The handler's response *)

Lemma getQuizLeaderboard_no_documents db :
  users db = [] ->
  getQuizLeaderboard db = (db, {| status := 404; body := Message "No users found" |}).
Proof.
  intros H. unfold getQuizLeaderboard, try_catch, bind, users_get. rewrite H.
  reflexivity.
Qed.

Lemma getQuizLeaderboard_documents db :
  users db <> [] ->
  exists userScores,
    forEach aggregate_doc (users db) [] = Ok userScores
    /\ getQuizLeaderboard db
       = (db, {| status := 200;
                 body := Rows (indexedLeaderboard (leaderboard userScores)) |}).
Proof.
  intros H. destruct (aggregate_ok (users db) []) as [userScores Hagg].
  exists userScores. split; [exact Hagg|].
  unfold getQuizLeaderboard, try_catch, bind, users_get, lift.
  destruct (users db); [contradiction|]. simpl snapshot_empty. cbv iota.
  rewrite Hagg. reflexivity.
Qed.

Lemma getQuizLeaderboard_unique db :
  users db <> [] -> users_unique db ->
  getQuizLeaderboard db
  = (db, {| status := 200;
            body := Rows (indexedLeaderboard
                            (leaderboard (omap expected_score (users db)))) |}).
Proof.
  intros Hne Hu. destruct (getQuizLeaderboard_documents db Hne) as [o [Hagg ->]].
  rewrite aggregate_unique in Hagg; [| exact Hu | intros k _ []].
  simpl in Hagg. inversion Hagg. reflexivity.
Qed.

(** ** The rows *)

Lemma entries_for_own (userScores : JsObject) : forall l : list (string * UserScore),
  (forall k v, In (k, v) l -> own_lookup userScores k = Some v) ->
  omap (entry_for userScores) (map fst l) = map entry_of l.
Proof.
  induction l as [|[k v] l IH]; intros H; [reflexivity|].
  cbn [map omap list_omap fst]. unfold entry_for at 1.
  rewrite (H k v (or_introl eq_refl)).
  fold (omap (entry_for userScores) (map fst l)).
  rewrite IH; [reflexivity|]. intros k' v' Hin. apply H. right. exact Hin.
Qed.

Lemma leaderboard_perm userScores :
  NoDup (map fst userScores) ->
  leaderboard userScores ≡ₚ map entry_of userScores.
Proof.
  intros Hnd. unfold leaderboard.
  rewrite Array_sort_perm, Object_keys_perm.
  rewrite entries_for_own; [reflexivity|].
  intros k v. apply own_lookup_unique, Hnd.
Qed.

(** Every key [Object.keys] lists yields an entry: the leaderboard has one
    entry per own property of [userScores]. *)
Lemma leaderboard_length userScores :
  length (leaderboard userScores) = length userScores.
Proof.
  unfold leaderboard.
  rewrite (Permutation_length (Array_sort_perm _ _)).
  rewrite (Permutation_length
             (omap_Permutation (entry_for userScores) _ _ (Object_keys_perm userScores))).
  assert (H : forall l : list string,
             (forall k, In k l -> is_Some (own_lookup userScores k)) ->
             length (omap (entry_for userScores) l) = length l).
  { induction l as [|k l IH]; intros Hl; [reflexivity|].
    cbn [omap list_omap]. unfold entry_for at 1.
    destruct (Hl k (or_introl eq_refl)) as [v ->]. simpl.
    f_equal. apply IH. intros k' Hk'. apply Hl. right. exact Hk'. }
  rewrite H; [apply length_map|]. intros k. apply own_lookup_listed.
Qed.

Lemma leaderboard_sorted userScores :
  StronglySorted (precedes descending) (leaderboard userScores).
Proof.
  unfold leaderboard. apply Array_sort_sorted.
  - unfold descending. intros x y. lia.
  - unfold precedes, descending. intros x y z. lia.
Qed.

Lemma indexedLeaderboard_lookup lb (i : nat) row :
  indexedLeaderboard lb !! i = Some row ->
  exists e, lb !! i = Some e
            /\ row = {| row_rank := Z.of_nat i + 1;
                        row_userId := lb_userId e;
                        row_totalScore := lb_totalScore e;
                        row_quizzesTaken := lb_quizzesTaken e |}.
Proof.
  unfold indexedLeaderboard. rewrite list_lookup_imap.
  destruct (lb !! i) as [e|]; simpl; [|discriminate].
  intros [= <-]. eauto.
Qed.

Lemma indexedLeaderboard_sorted_ranked lb :
  StronglySorted (precedes descending) lb ->
  (forall (i j : nat) a b,
      (i < j)%nat ->
      indexedLeaderboard lb !! i = Some a ->
      indexedLeaderboard lb !! j = Some b ->
      row_totalScore b <= row_totalScore a)
  /\ (forall (i : nat) row,
         indexedLeaderboard lb !! i = Some row -> row_rank row = Z.of_nat i + 1).
Proof.
  intros Hs. split.
  - intros i j a b Hlt Ha Hb.
    apply indexedLeaderboard_lookup in Ha as [ea [Ha ->]].
    apply indexedLeaderboard_lookup in Hb as [eb [Hb ->]]. simpl.
    pose proof (StronglySorted_lookup_lt descending lb i j ea eb Hs Ha Hb Hlt) as H.
    unfold precedes, descending in H. lia.
  - intros i row Hrow.
    apply indexedLeaderboard_lookup in Hrow as [e [_ ->]]. reflexivity.
Qed.

(** Every response of the handler carries the rows of some aggregate (none,
    for the 404). *)
Lemma getQuizLeaderboard_rows db :
  response_rows (getQuizLeaderboard db).2 = []
  \/ exists userScores,
       response_rows (getQuizLeaderboard db).2
       = indexedLeaderboard (leaderboard userScores).
Proof.
  destruct (users db) as [|d docs] eqn:E.
  - left. rewrite getQuizLeaderboard_no_documents by exact E. reflexivity.
  - right. destruct (getQuizLeaderboard_documents db) as [o [_ ->]]; [congruence|].
    exists o. reflexivity.
Qed.

Lemma In_indexedLeaderboard lb row :
  In row (indexedLeaderboard lb) ->
  exists e, In e lb
            /\ row_userId row = lb_userId e
            /\ row_totalScore row = lb_totalScore e
            /\ row_quizzesTaken row = lb_quizzesTaken e.
Proof.
  intros H. apply list_elem_of_In, list_elem_of_lookup in H as [i Hi].
  apply indexedLeaderboard_lookup in Hi as [e [He ->]].
  exists e. simpl. repeat split.
  apply list_elem_of_In, list_elem_of_lookup. eauto.
Qed.

Lemma indexedLeaderboard_In lb e :
  In e lb ->
  exists row, In row (indexedLeaderboard lb) /\ row_userId row = lb_userId e.
Proof.
  intros H. apply list_elem_of_In, list_elem_of_lookup in H as [i Hi].
  eexists. split.
  - apply list_elem_of_In. unfold indexedLeaderboard.
    apply (elem_of_lookup_imap_2 _ _ _ _ Hi).
  - reflexivity.
Qed.

Lemma expected_score_inv doc kv :
  expected_score doc = Some kv ->
  exists history,
    user_quizzesTaken (snd doc) = Some history
    /\ history <> []
    /\ inherited (fst doc) = false
    /\ kv = (fst doc, {| totalScore := history_total history;
                         quizzesTaken := Z.of_nat (length history) |}).
Proof.
  unfold expected_score.
  destruct (user_quizzesTaken (snd doc)) as [history|]; [|discriminate].
  destruct (0 <? Z.of_nat (length history)) eqn:Hlen; simpl; [|discriminate].
  destruct (inherited (fst doc)); simpl; [discriminate|].
  intros [= <-]. exists history. repeat split.
  intros ->. discriminate.
Qed.

Lemma expected_keys_unique docs :
  NoDup (map fst docs) -> NoDup (map fst (omap expected_score docs)).
Proof.
  induction docs as [|doc rest IH]; intros Hnd; [constructor|].
  simpl in Hnd. apply NoDup_cons in Hnd as [Hfresh Hnd].
  cbn [omap list_omap]. destruct (expected_score doc) as [kv|] eqn:E; [|auto].
  simpl. apply NoDup_cons. split; [|auto].
  intros Hin. apply Hfresh. rewrite <- (expected_score_key _ _ E).
  apply list_elem_of_In in Hin. apply list_elem_of_In.
  apply in_map_iff in Hin as [kv' [Hk Hin]].
  apply list_elem_of_In, list_elem_of_omap in Hin as [doc' [Hdoc' E']].
  rewrite <- Hk, (expected_score_key _ _ E').
  apply in_map, list_elem_of_In, Hdoc'.
Qed.

(** With unique document ids: each row belongs to a user document with a
    non-empty history and carries that history's total and length; and every
    such user whose id is not a property name of [Object.prototype] has a
    row. *)
Lemma leaderboard_rows_characterised db :
  users_unique db ->
  (forall row, In row (response_rows (getQuizLeaderboard db).2) ->
     exists data history,
       In (row_userId row, data) (users db)
       /\ user_quizzesTaken data = Some history
       /\ history <> []
       /\ inherited (row_userId row) = false
       /\ row_totalScore row = history_total history
       /\ row_quizzesTaken row = Z.of_nat (length history))
  /\ (forall userId data history,
        In (userId, data) (users db) ->
        user_quizzesTaken data = Some history ->
        history <> [] ->
        inherited userId = false ->
        exists row, In row (response_rows (getQuizLeaderboard db).2)
                    /\ row_userId row = userId).
Proof.
  intros Hu. destruct (users db) as [|d docs] eqn:E.
  { rewrite getQuizLeaderboard_no_documents by exact E.
    split; [intros row []| intros ? ? ? []]. }
  rewrite getQuizLeaderboard_unique by (congruence || exact Hu).
  rewrite E. unfold response_rows. cbn [snd body].
  assert (Hnd : NoDup (map fst (omap expected_score (d :: docs)))).
  { apply expected_keys_unique. rewrite <- E. exact Hu. }
  split.
  - intros row Hrow.
    apply In_indexedLeaderboard in Hrow as (e & He & Hid & Htot & Hcnt).
    apply (Permutation_in _ (leaderboard_perm _ Hnd)) in He.
    apply in_map_iff in He as [kv [<- Hkv]].
    apply list_elem_of_In, list_elem_of_omap in Hkv as [doc [Hdoc Hexp]].
    apply expected_score_inv in Hexp as (history & Hh & Hne & Hinh & ->).
    exists (snd doc), history. simpl in *.
    rewrite Hid, Htot, Hcnt. repeat split; try assumption.
    apply list_elem_of_In in Hdoc. destruct doc; exact Hdoc.
  - intros userId data history Hin Hh Hne Hinh.
    assert (He : In (entry_of (userId, {| totalScore := history_total history;
                                          quizzesTaken := Z.of_nat (length history) |}))
                    (leaderboard (omap expected_score (d :: docs)))).
    { apply (Permutation_in _ (Permutation_sym (leaderboard_perm _ Hnd))).
      apply in_map, list_elem_of_In, list_elem_of_omap.
      exists (userId, data). split; [apply list_elem_of_In; exact Hin|].
      unfold expected_score. simpl. rewrite Hh, Hinh.
      destruct history; [contradiction|]. reflexivity. }
    apply indexedLeaderboard_In in He as [row [Hrow Hid]]. eauto.
Qed.

(** * Leaderboard claims *)

(** C6: a user document whose id is a property name of [Object.prototype]
    (here [constructor]) gets no leaderboard row although its history is not
    empty: [userScores[userId]] reads the inherited builtin, so no entry is
    created for the user and [Object.keys] never lists it. *)
Theorem C6_no_row_for_user_named_constructor :
  users_unique example_builtin_db
  /\ (exists data e,
         In ("constructor", data) (users example_builtin_db)
         /\ user_quizzesTaken data = Some [e])
  /\ getQuizLeaderboard example_builtin_db
     = (example_builtin_db, {| status := 200; body := Rows [] |}).
Proof.
  split; [|split].
  - unfold users_unique. simpl. apply NoDup_singleton.
  - do 2 eexists. split; [left; reflexivity | reflexivity].
  - reflexivity.
Qed.

(** C7: the rows of a leaderboard response are in non-increasing order of
    [totalScore], and the row at position i (from 0) has rank i + 1.  With
    user A at 10 points over two quizzes and user B at 15 points over one, B
    is ranked first and A second. *)
Theorem C7_leaderboard_sorted_and_ranked db rows :
  body (getQuizLeaderboard db).2 = Rows rows ->
  (forall (i j : nat) a b,
      (i < j)%nat -> rows !! i = Some a -> rows !! j = Some b ->
      row_totalScore b <= row_totalScore a)
  /\ (forall (i : nat) row, rows !! i = Some row -> row_rank row = Z.of_nat i + 1)
  /\ (forall a1 a2 b1,
         users db = [ ("A", {| user_quizzesTaken := Some [a1; a2] |});
                      ("B", {| user_quizzesTaken := Some [b1] |}) ] ->
         entry_score a1 + entry_score a2 = 10 ->
         entry_score b1 = 15 ->
         rows = [ {| row_rank := 1; row_userId := "B";
                     row_totalScore := 15; row_quizzesTaken := 1 |};
                  {| row_rank := 2; row_userId := "A";
                     row_totalScore := 10; row_quizzesTaken := 2 |} ]).
Proof.
  intros Hbody.
  assert (Hrows : rows = response_rows (getQuizLeaderboard db).2).
  { unfold response_rows. rewrite Hbody. reflexivity. }
  split; [|split].
  - destruct (getQuizLeaderboard_rows db) as [Hr|[o Hr]]; rewrite Hr in Hrows; subst rows.
    + intros i j a b _ Ha. discriminate.
    + apply indexedLeaderboard_sorted_ranked, leaderboard_sorted.
  - destruct (getQuizLeaderboard_rows db) as [Hr|[o Hr]]; rewrite Hr in Hrows; subst rows.
    + intros i row Hrow. discriminate.
    + apply indexedLeaderboard_sorted_ranked, leaderboard_sorted.
  - intros a1 a2 b1 Husers HA HB.
    rewrite getQuizLeaderboard_unique in Hrows.
    + rewrite Hrows, Husers. unfold response_rows. cbn [snd body].
      assert (Hagg : omap expected_score
                       [ ("A", {| user_quizzesTaken := Some [a1; a2] |});
                         ("B", {| user_quizzesTaken := Some [b1] |}) ]
                     = [ ("A", {| totalScore := 10; quizzesTaken := 2 |});
                         ("B", {| totalScore := 15; quizzesTaken := 1 |}) ]).
      { cbn [omap list_omap expected_score snd fst user_quizzesTaken].
        change (inherited "A") with false. change (inherited "B") with false.
        cbn [length Z.of_nat Z.ltb Z.compare andb negb history_total foldr].
        repeat f_equal; simpl; lia. }
      rewrite Hagg. reflexivity.
    + rewrite Husers. discriminate.
    + unfold users_unique. rewrite Husers. simpl.
      apply NoDup_cons. split; [|apply NoDup_singleton].
      intros H. apply list_elem_of_In in H. destruct H as [H|[]]. discriminate.
Qed.

Lemma C7_leaderboard_sorted_and_ranked_witness :
  response_rows (getQuizLeaderboard example_ab_db).2
  = [ {| row_rank := 1; row_userId := "B";
         row_totalScore := 15; row_quizzesTaken := 1 |};
      {| row_rank := 2; row_userId := "A";
         row_totalScore := 10; row_quizzesTaken := 2 |} ].
Proof.
  destruct (C7_leaderboard_sorted_and_ranked example_ab_db
              (response_rows (getQuizLeaderboard example_ab_db).2) eq_refl)
    as (_ & _ & H).
  apply (H _ _ _ eq_refl); reflexivity.
Defined.

(** C8, as stated, fails: with user documents present but none with any
    history, the endpoint answers 200 with an empty array, not 404. *)
Lemma C8_counterexample :
  ~ (forall db, no_history db ->
                (getQuizLeaderboard db).2
                = {| status := 404; body := Message "No users found" |}).
Proof.
  intros H. specialize (H example_db).
  assert (Hn : no_history example_db).
  { intros userId data [[= <- <-]|[]]. left. reflexivity. }
  specialize (H Hn). vm_compute in H. discriminate H.
Qed.

(** C8, amended: when no user has any history the handler never answers with
    the generic error.  With an empty [users] collection it answers 404
    [{message: "No users found"}]; with user documents present, none of which
    has any history, it answers 200 with an empty array of rows. *)
Theorem C8_leaderboard_without_history db :
  no_history db ->
  (users db = [] ->
   getQuizLeaderboard db
   = (db, {| status := 404; body := Message "No users found" |}))
  /\ (users db <> [] ->
      getQuizLeaderboard db = (db, {| status := 200; body := Rows [] |})).
Proof.
  intros Hn. split.
  - apply getQuizLeaderboard_no_documents.
  - intros Hne. destruct (getQuizLeaderboard_documents db Hne) as [o [Hagg ->]].
    rewrite (aggregate_no_history (users db) [] Hn) in Hagg. inversion Hagg. reflexivity.
Qed.

Lemma C8_leaderboard_without_history_witness :
  getQuizLeaderboard example_no_users_db
  = (example_no_users_db, {| status := 404; body := Message "No users found" |})
  /\ getQuizLeaderboard example_db
     = (example_db, {| status := 200; body := Rows [] |}).
Proof.
  split.
  - apply (C8_leaderboard_without_history example_no_users_db).
    + intros userId data [].
    + reflexivity.
  - apply (C8_leaderboard_without_history example_db).
    + intros userId data [[= <- <-]|[]]. left. reflexivity.
    + simpl. discriminate.
Defined.

(** C9: the leaderboard handler leaves the store as it found it, so a second
    evaluation right after the first gives the same response; the response
    depends on the [users] collection only. *)
Theorem C9_leaderboard_idempotent :
  (forall db,
      (getQuizLeaderboard db).1 = db
      /\ (getQuizLeaderboard (getQuizLeaderboard db).1).2 = (getQuizLeaderboard db).2)
  /\ (forall db db',
         users db = users db' ->
         (getQuizLeaderboard db).2 = (getQuizLeaderboard db').2).
Proof.
  assert (Hstore : forall db, (getQuizLeaderboard db).1 = db).
  { intros db. destruct (users db) eqn:E.
    - rewrite getQuizLeaderboard_no_documents by exact E. reflexivity.
    - destruct (getQuizLeaderboard_documents db) as [o [_ ->]]; [congruence|].
      reflexivity. }
  split.
  - intros db. split; [apply Hstore|]. rewrite Hstore. reflexivity.
  - intros db db' Hu.
    unfold getQuizLeaderboard, try_catch, bind, users_get, lift. rewrite Hu.
    destruct (snapshot_empty (users db')); [reflexivity|].
    destruct (forEach aggregate_doc (users db') []); reflexivity.
Qed.

Lemma C9_leaderboard_idempotent_witness :
  (getQuizLeaderboard (getQuizLeaderboard example_ab_db).1).2
  = (getQuizLeaderboard example_ab_db).2
  /\ (getQuizLeaderboard example_db).2 = (getQuizLeaderboard example_db2).2.
Proof.
  destruct C9_leaderboard_idempotent as [H1 H2]. split.
  - apply (H1 example_ab_db).
  - apply (H2 example_db example_db2). reflexivity.
Defined.


(** * Further properties of scoring *)

Lemma score_loop_perm questions answers answers' :
  answers ≡ₚ answers' ->
  score_loop questions answers = score_loop questions answers'.
Proof.
  induction 1 as [|a l l' _ IH|a b l|l l' l'' _ IH1 _ IH2].
  - reflexivity.
  - rewrite !score_loop_cons, IH. reflexivity.
  - rewrite !score_loop_cons. lia.
  - congruence.
Qed.

(** X1: the score does not depend on the order in which the answers are
    submitted. *)
Theorem X1_calculateScore_order_irrelevant db quizId answers answers' :
  answers ≡ₚ answers' ->
  calculateScore answers quizId db = calculateScore answers' quizId db.
Proof.
  intros Hperm. unfold calculateScore, bind, quizzes_doc_data.
  destruct (quizzes db !! quizId) as [quiz|]; [|reflexivity].
  unfold ret. rewrite (score_loop_perm _ _ _ Hperm). reflexivity.
Qed.

Lemma X1_calculateScore_order_irrelevant_witness :
  calculateScore [ {| answer_questionId := "q3"; answer_selectedOptionId := "o2" |};
                   {| answer_questionId := "q2"; answer_selectedOptionId := "o1" |} ]
                 "quiz2" example_db2
  = calculateScore [ {| answer_questionId := "q2"; answer_selectedOptionId := "o1" |};
                     {| answer_questionId := "q3"; answer_selectedOptionId := "o2" |} ]
                   "quiz2" example_db2.
Proof.
  apply (X1_calculateScore_order_irrelevant example_db2 "quiz2").
  apply perm_swap.
Defined.

(** X2: scoring two batches of answers together gives the sum of their
    separate scores; in particular no answer influences how another one is
    scored. *)
Theorem X2_calculateScore_additive db quizId quiz answers1 answers2 :
  quizzes db !! quizId = Some quiz ->
  exists score1 score2,
    calculateScore answers1 quizId db = (db, Ok score1)
    /\ calculateScore answers2 quizId db = (db, Ok score2)
    /\ calculateScore (answers1 ++ answers2) quizId db = (db, Ok (score1 + score2)).
Proof.
  intros Hquiz. do 2 eexists.
  rewrite !(calculateScore_found _ _ _ _ Hquiz), score_loop_app. auto.
Qed.

Lemma X2_calculateScore_additive_witness :
  exists score1 score2,
    calculateScore [ {| answer_questionId := "q3"; answer_selectedOptionId := "o2" |} ]
                   "quiz2" example_db2 = (example_db2, Ok score1)
    /\ calculateScore [ {| answer_questionId := "q2"; answer_selectedOptionId := "o1" |} ]
                      "quiz2" example_db2 = (example_db2, Ok score2)
    /\ calculateScore
         ([ {| answer_questionId := "q3"; answer_selectedOptionId := "o2" |} ]
            ++ [ {| answer_questionId := "q2"; answer_selectedOptionId := "o1" |} ])
         "quiz2" example_db2 = (example_db2, Ok (score1 + score2)).
Proof.
  apply (X2_calculateScore_additive example_db2 "quiz2" example_quiz2). reflexivity.
Defined.

(** X3: for a quiz in the store the score is never negative and never
    exceeds the number of submitted answers, whatever the answers and the
    quiz look like; an empty submission scores 0. *)
Theorem X3_calculateScore_at_most_answers db quizId quiz answers :
  quizzes db !! quizId = Some quiz ->
  (exists score,
      calculateScore answers quizId db = (db, Ok score)
      /\ 0 <= score <= Z.of_nat (length answers))
  /\ calculateScore [] quizId db = (db, Ok 0).
Proof.
  intros Hquiz. rewrite !(calculateScore_found _ _ _ _ Hquiz). split; [|reflexivity].
  eexists. split; [reflexivity|]. apply score_loop_bounds.
Qed.

Lemma X3_calculateScore_at_most_answers_witness :
  (exists score,
      calculateScore [ {| answer_questionId := "q1"; answer_selectedOptionId := "o1" |};
                       {| answer_questionId := "q1"; answer_selectedOptionId := "o1" |} ]
                     "quiz1" example_db = (example_db, Ok score)
      /\ 0 <= score <= 2)
  /\ calculateScore [] "quiz1" example_db = (example_db, Ok 0).
Proof.
  apply (X3_calculateScore_at_most_answers example_db "quiz1" example_quiz). reflexivity.
Defined.




Lemma find_question_shadowed before q after answer :
  (exists q0, In q0 before /\ question_questionId q0 = question_questionId q) ->
  find_question (before ++ q :: after) answer = find_question (before ++ after) answer.
Proof.
  unfold find_question. intros [q0 [Hin Hid]].
  induction before as [|q' before IH]; [destruct Hin|].
  simpl. destruct (String.eqb_spec (question_questionId q') (answer_questionId answer))
    as [E|E]; [reflexivity|].
  destruct Hin as [->|Hin].
  - clear IH. induction before as [|q'' before IH]; simpl.
    + rewrite <- Hid. destruct (String.eqb_spec (question_questionId q0)
                                  (answer_questionId answer)); [contradiction|reflexivity].
    + destruct (String.eqb _ _); [reflexivity|exact IH].
  - apply IH. exact Hin.
Qed.

(** X5: a question whose [questionId] already occurs earlier in the quiz is
    never scored against: the score is what it would be without that
    question. *)
Theorem X5_shadowed_question_never_scored
    db quizId quizId' quiz quiz' before q after answers :
  quizzes db !! quizId = Some quiz ->
  quizzes db !! quizId' = Some quiz' ->
  quiz_questions quiz = before ++ q :: after ->
  quiz_questions quiz' = before ++ after ->
  (exists q0, In q0 before /\ question_questionId q0 = question_questionId q) ->
  calculateScore answers quizId db = calculateScore answers quizId' db.
Proof.
  intros Hquiz Hquiz' Hqs Hqs' Hdup.
  rewrite (calculateScore_found _ _ _ _ Hquiz), (calculateScore_found _ _ _ _ Hquiz').
  rewrite Hqs, Hqs'. do 2 f_equal.
  unfold score_loop. generalize 0.
  induction answers as [|a answers IH]; intros score; [reflexivity|].
  simpl. unfold score_answer at 2 4.
  rewrite (find_question_shadowed _ _ _ _ Hdup). apply IH.
Qed.

Lemma X5_shadowed_question_never_scored_witness :
  calculateScore [ {| answer_questionId := "q1"; answer_selectedOptionId := "o2" |} ]
                 "quiz3" example_db3
  = calculateScore [ {| answer_questionId := "q1"; answer_selectedOptionId := "o2" |} ]
                   "quiz1" example_db3.
Proof.
  apply (X5_shadowed_question_never_scored example_db3 "quiz3" "quiz1"
           example_quiz3 example_quiz [example_q1] example_shadowed []);
    try reflexivity.
  exists example_q1. split; [left; reflexivity | reflexivity].
Defined.

(** * The [users] collection under [update] *)

Lemma user_document_In docs userId data :
  user_document docs userId = Some data -> In (userId, data) docs.
Proof.
  induction docs as [|[k d] rest IH]; simpl; [discriminate|].
  destruct (String.eqb_spec k userId) as [->|_].
  - intros [= ->]. left. reflexivity.
  - intros H. right. apply IH, H.
Qed.

Lemma user_document_unique docs userId data :
  NoDup (map fst docs) -> In (userId, data) docs ->
  user_document docs userId = Some data.
Proof.
  induction docs as [|[k d] rest IH]; simpl; [tauto|].
  intros Hnd Hin. apply NoDup_cons in Hnd as [Hfresh Hnd].
  destruct Hin as [[= -> ->]|Hin].
  - rewrite String.eqb_refl. reflexivity.
  - destruct (String.eqb_spec k userId) as [->|_]; [|auto].
    exfalso. apply Hfresh, list_elem_of_In, in_map_iff. exists (userId, data). auto.
Qed.

Lemma user_document_None docs userId :
  user_document docs userId = None -> ~ In userId (map fst docs).
Proof.
  induction docs as [|[k d] rest IH]; simpl; [tauto|].
  destruct (String.eqb_spec k userId) as [->|Hne]; [discriminate|].
  intros H [Hk|Hin]; [contradiction|]. exact (IH H Hin).
Qed.

Lemma update_doc_found userId f docs data :
  user_document docs userId = Some data ->
  exists docs',
    update_doc userId f docs = Some docs'
    /\ map fst docs' = map fst docs
    /\ user_document docs' userId = Some (f data)
    /\ (forall other, other <> userId ->
                      user_document docs' other = user_document docs other)
    /\ (forall k d', In (k, d') docs' ->
                     In (k, d') docs \/ (k = userId /\ d' = f data)).
Proof.
  induction docs as [|[k d] rest IH]; simpl; [discriminate|].
  destruct (String.eqb_spec k userId) as [->|Hne].
  - intros [= ->]. eexists. split; [reflexivity|]. simpl.
    rewrite String.eqb_refl. repeat split; auto.
    + intros other Hother.
      destruct (String.eqb_spec userId other); [congruence|reflexivity].
    + intros k d' [[= <- <-]|Hin]; auto.
  - intros Hd. destruct (IH Hd) as (rest' & -> & Hkeys & Hget & Hother & Hin).
    eexists. split; [reflexivity|]. simpl.
    destruct (String.eqb_spec k userId); [contradiction|].
    rewrite Hkeys. repeat split; auto.
    + intros other Ho. rewrite (Hother other Ho). reflexivity.
    + intros k' d' [[= <- <-]|Hin']; auto.
      destruct (Hin k' d' Hin'); auto.
Qed.

Lemma update_doc_fixed userId f docs data :
  user_document docs userId = Some data -> f data = data ->
  update_doc userId f docs = Some docs.
Proof.
  induction docs as [|[k d] rest IH]; simpl; [discriminate|].
  destruct (String.eqb_spec k userId) as [->|Hne].
  - intros [= ->] ->. reflexivity.
  - intros Hd Hf. rewrite (IH Hd Hf). reflexivity.
Qed.

(** ** What a submission does to the store *)

Lemma submitQuizAnswers_recorded quizId userId answers submittedAt completedAt db quiz :
  quizzes db !! quizId = Some quiz ->
  submitQuizAnswers quizId userId answers submittedAt completedAt db
  = let score := score_loop (quiz_questions quiz) answers in
    let recorded :=
      results db ++ [ {| submission_quizId := quizId;
                         submission_userId := userId;
                         submission_answers := answers;
                         submission_score := score;
                         submission_submittedAt := submittedAt |} ] in
    match update_doc userId
            (fun d => {| user_quizzesTaken :=
                           Some (arrayUnion {| entry_quizId := quizId;
                                               entry_score := score;
                                               entry_completedAt := completedAt |}
                                            (user_quizzesTaken d)) |})
            (users db) with
    | Some docs =>
        ({| quizzes := quizzes db; results := recorded; users := docs |},
         {| status := 200;
            body := SubmitResult "Quiz answers submitted successfully" score |})
    | None =>
        ({| quizzes := quizzes db; results := recorded; users := users db |},
         {| status := 500; body := Text "Internal Server Error" |})
    end.
Proof.
  intros Hquiz. unfold submitQuizAnswers, try_catch, bind.
  rewrite (calculateScore_found _ _ _ _ Hquiz).
  unfold results_add, users_doc_update_quizzesTaken. simpl.
  destruct (update_doc _ _ _); reflexivity.
Qed.

Lemma arrayUnion_cases e field :
  In e (arrayUnion e field)
  /\ (arrayUnion e field = match field with Some l => l | None => [] end
      \/ (~ In e (match field with Some l => l | None => [] end)
          /\ arrayUnion e field = match field with Some l => l | None => [] end ++ [e])).
Proof.
  unfold arrayUnion. destruct field as [l|].
  - destruct (decide (e ∈ l)) as [Hin|Hnin].
    + split; [apply list_elem_of_In, Hin | left; reflexivity].
    + split; [apply in_or_app; right; left; reflexivity|].
      right. split; [|reflexivity]. intros H. apply Hnin, list_elem_of_In, H.
  - split; [left; reflexivity|]. right. split; [intros []|reflexivity].
Qed.

Lemma arrayUnion_idempotent e field :
  arrayUnion e (Some (arrayUnion e field)) = arrayUnion e field.
Proof.
  unfold arrayUnion at 1.
  destruct (decide (e ∈ arrayUnion e field)) as [_|Hnin]; [reflexivity|].
  exfalso. apply Hnin, list_elem_of_In, arrayUnion_cases.
Qed.

Lemma arrayUnion_NoDup e field :
  (forall l, field = Some l -> NoDup l) -> NoDup (arrayUnion e field).
Proof.
  intros H. unfold arrayUnion. destruct field as [l|]; [|apply NoDup_singleton].
  destruct (decide (e ∈ l)) as [Hin|Hnin]; [apply H; reflexivity|].
  apply NoDup_app. split; [apply H; reflexivity|].
  split; [|apply NoDup_singleton].
  intros x Hx Hx'. apply list_elem_of_In in Hx'. destruct Hx' as [<-|[]]. exact (Hnin Hx).
Qed.

Lemma history_total_app h1 h2 :
  history_total (h1 ++ h2) = history_total h1 + history_total h2.
Proof.
  unfold history_total. induction h1 as [|e h1 IH]; simpl; [reflexivity|].
  rewrite IH. lia.
Qed.

(** * Further properties of submission *)

(** X6: a submission for a stored quiz by a user with a user document is
    answered 200 with the score of the answers; it leaves the quizzes alone,
    appends one result record carrying that score, keeps the set and order
    of user documents, leaves every other user's document as it was, and
    afterwards the user's [quizzesTaken] holds the entry for this attempt:
    the old array, with the entry appended unless an identical entry was
    already there. *)
Theorem X6_submit_records_result_and_history
    quizId userId answers submittedAt completedAt db quiz data :
  quizzes db !! quizId = Some quiz ->
  user_document (users db) userId = Some data ->
  let score := score_loop (quiz_questions quiz) answers in
  let entry := {| entry_quizId := quizId; entry_score := score;
                  entry_completedAt := completedAt |} in
  exists db',
    submitQuizAnswers quizId userId answers submittedAt completedAt db
    = (db', {| status := 200;
               body := SubmitResult "Quiz answers submitted successfully" score |})
    /\ quizzes db' = quizzes db
    /\ results db'
       = results db ++ [ {| submission_quizId := quizId;
                            submission_userId := userId;
                            submission_answers := answers;
                            submission_score := score;
                            submission_submittedAt := submittedAt |} ]
    /\ map fst (users db') = map fst (users db)
    /\ (forall other, other <> userId ->
                      user_document (users db') other = user_document (users db) other)
    /\ exists history',
         user_document (users db') userId = Some {| user_quizzesTaken := Some history' |}
         /\ In entry history'
         /\ (history' = history_of data
             \/ (~ In entry (history_of data) /\ history' = history_of data ++ [entry])).
Proof.
  intros Hquiz Huser score entry.
  rewrite (submitQuizAnswers_recorded _ _ _ _ _ _ _ Hquiz). cbv zeta.
  match goal with |- context [update_doc ?u ?f ?d] =>
    destruct (update_doc_found u f d data Huser)
      as (docs & -> & Hkeys & Hget & Hother & _) end.
  eexists. split; [reflexivity|]. cbn [quizzes results users].
  repeat split; auto.
  eexists. split; [exact Hget|].
  apply arrayUnion_cases.
Qed.

Lemma X6_submit_records_result_and_history_witness :
  exists db',
    submitQuizAnswers "quiz1" "A"
      [ {| answer_questionId := "q1"; answer_selectedOptionId := "o1" |} ] 10 11
      example_ab_db
    = (db', {| status := 200;
               body := SubmitResult "Quiz answers submitted successfully" 1 |})
    /\ length (results db') = 1%nat
    /\ map fst (users db') = ["A"; "B"].
Proof.
  destruct (X6_submit_records_result_and_history "quiz1" "A"
              [ {| answer_questionId := "q1"; answer_selectedOptionId := "o1" |} ] 10 11
              example_ab_db example_quiz
              {| user_quizzesTaken :=
                   Some [ {| entry_quizId := "quiz1"; entry_score := 4;
                             entry_completedAt := 1 |};
                          {| entry_quizId := "quiz1"; entry_score := 6;
                             entry_completedAt := 2 |} ] |}
              eq_refl eq_refl)
    as (db' & Hrun & _ & Hres & Hkeys & _).
  exists db'. split; [exact Hrun|]. split.
  - rewrite Hres. reflexivity.
  - rewrite Hkeys. reflexivity.
Defined.

(** X7: the two ways a submission fails.  For an unknown quiz nothing is
    written.  For a stored quiz but a user without a user document, the
    result record has already been added when the history update is
    rejected: the caller gets 500, the [results] collection has grown, and
    no history reflects the attempt. *)
Theorem X7_submit_failures quizId userId answers submittedAt completedAt db :
  (quizzes db !! quizId = None ->
   submitQuizAnswers quizId userId answers submittedAt completedAt db
   = (db, {| status := 500; body := Text "Internal Server Error" |}))
  /\ (forall quiz,
         quizzes db !! quizId = Some quiz ->
         user_document (users db) userId = None ->
         submitQuizAnswers quizId userId answers submittedAt completedAt db
         = ({| quizzes := quizzes db;
               results :=
                 results db
                 ++ [ {| submission_quizId := quizId;
                         submission_userId := userId;
                         submission_answers := answers;
                         submission_score := score_loop (quiz_questions quiz) answers;
                         submission_submittedAt := submittedAt |} ];
               users := users db |},
            {| status := 500; body := Text "Internal Server Error" |})).
Proof.
  split.
  - apply submitQuizAnswers_missing_quiz.
  - intros quiz Hquiz Huser.
    rewrite (submitQuizAnswers_recorded _ _ _ _ _ _ _ Hquiz). cbv zeta.
    rewrite update_doc_none; [reflexivity|]. apply user_document_None, Huser.
Qed.

Lemma X7_submit_failures_witness :
  submitQuizAnswers "quiz9" "user123" [] 1 2 example_db
  = (example_db, {| status := 500; body := Text "Internal Server Error" |})
  /\ exists db',
       submitQuizAnswers "quiz1" "nobody" [] 1 2 example_db
       = (db', {| status := 500; body := Text "Internal Server Error" |})
       /\ length (results db') = 1%nat
       /\ users db' = users example_db.
Proof.
  destruct (X7_submit_failures "quiz9" "user123" [] 1 2 example_db) as [H1 _].
  destruct (X7_submit_failures "quiz1" "nobody" [] 1 2 example_db) as [_ H2].
  split; [apply H1; reflexivity|].
  eexists. split; [apply (H2 example_quiz); reflexivity|]. split; reflexivity.
Defined.

(** X8: a submission is answered 200 exactly when both the quiz and the
    user's document exist; in every other case the answer is the generic
    500. *)
Theorem X8_submit_succeeds_iff quizId userId answers submittedAt completedAt db :
  let response := (submitQuizAnswers quizId userId answers submittedAt completedAt db).2 in
  (status response = 200
   <-> is_Some (quizzes db !! quizId) /\ is_Some (user_document (users db) userId))
  /\ (status response = 200
      \/ response = {| status := 500; body := Text "Internal Server Error" |}).
Proof.
  cbv zeta. destruct (quizzes db !! quizId) as [quiz|] eqn:Hquiz.
  - rewrite (submitQuizAnswers_recorded _ _ _ _ _ _ _ Hquiz). cbv zeta.
    destruct (user_document (users db) userId) as [data|] eqn:Huser.
    + match goal with |- context [update_doc ?u ?f ?d] =>
        destruct (update_doc_found u f d data Huser) as (docs & -> & _) end.
      simpl. split; [|left; reflexivity]. split; [eauto|reflexivity].
    + rewrite update_doc_none by (apply user_document_None, Huser).
      simpl. split; [|right; reflexivity].
      split; [discriminate|]. intros [_ [x Hx]]. discriminate.
  - rewrite submitQuizAnswers_missing_quiz by exact Hquiz.
    simpl. split; [|right; reflexivity].
    split; [discriminate|]. intros [[x Hx] _]. discriminate.
Qed.

(** X9: repeating a submission with the same quiz, user, answers and
    completion time is answered as the first time and adds a second result
    record, but does not change any user document: the history entry is
    already present and is not added twice. *)
Theorem X9_repeated_submission_counts_once
    quizId userId answers submittedAt completedAt db quiz data :
  quizzes db !! quizId = Some quiz ->
  user_document (users db) userId = Some data ->
  let run := submitQuizAnswers quizId userId answers submittedAt completedAt in
  (run (run db).1).2 = (run db).2
  /\ users (run (run db).1).1 = users (run db).1
  /\ length (results (run (run db).1).1) = S (S (length (results db))).
Proof.
  intros Hquiz Huser run. unfold run.
  rewrite (submitQuizAnswers_recorded _ _ _ _ _ _ _ Hquiz). cbv zeta.
  match goal with |- context [update_doc ?u ?f ?d] =>
    destruct (update_doc_found u f d data Huser)
      as (docs & Hupd & _ & Hget & _); rewrite Hupd end.
  cbn [fst snd].
  rewrite (submitQuizAnswers_recorded _ _ _ _ _ _ quiz) by exact Hquiz.
  cbv zeta. cbn [users results quizzes].
  erewrite update_doc_fixed; [| exact Hget |].
  - cbn [fst snd users results]. repeat split.
    rewrite !length_app. simpl. lia.
  - cbn [user_quizzesTaken]. rewrite arrayUnion_idempotent. reflexivity.
Qed.

Lemma X9_repeated_submission_counts_once_witness :
  let run := submitQuizAnswers "quiz1" "A"
               [ {| answer_questionId := "q1"; answer_selectedOptionId := "o1" |} ]
               10 11 in
  (run (run example_ab_db).1).2 = (run example_ab_db).2
  /\ users (run (run example_ab_db).1).1 = users (run example_ab_db).1
  /\ length (results (run (run example_ab_db).1).1) = 2%nat.
Proof.
  apply (X9_repeated_submission_counts_once "quiz1" "A"
           [ {| answer_questionId := "q1"; answer_selectedOptionId := "o1" |} ] 10 11
           example_ab_db example_quiz
           {| user_quizzesTaken :=
                Some [ {| entry_quizId := "quiz1"; entry_score := 4;
                          entry_completedAt := 1 |};
                       {| entry_quizId := "quiz1"; entry_score := 6;
                          entry_completedAt := 2 |} ] |});
    reflexivity.
Defined.

Lemma submitQuizAnswers_store_shape
    quizId userId answers submittedAt completedAt db :
  let db' := (submitQuizAnswers quizId userId answers submittedAt completedAt db).1 in
  quizzes db' = quizzes db /\ map fst (users db') = map fst (users db).
Proof.
  cbv zeta. destruct (quizzes db !! quizId) as [quiz|] eqn:Hquiz.
  2:{ rewrite submitQuizAnswers_missing_quiz by exact Hquiz. auto. }
  rewrite (submitQuizAnswers_recorded _ _ _ _ _ _ _ Hquiz). cbv zeta.
  destruct (user_document (users db) userId) as [data|] eqn:Huser.
  - match goal with |- context [update_doc ?u ?f ?d] =>
      destruct (update_doc_found u f d data Huser) as (docs & -> & Hkeys & _) end.
    auto.
  - rewrite update_doc_none by (apply user_document_None, Huser). auto.
Qed.

(** X10: whatever the request and whether or not it succeeds, a submission
    never creates, removes or reorders user documents, never touches the
    quizzes, only ever appends to the results (at most one record), and
    keeps every history free of repeated entries if it was so before. *)
Theorem X10_submit_preserves_store_shape
    quizId userId answers submittedAt completedAt db :
  let db' := (submitQuizAnswers quizId userId answers submittedAt completedAt db).1 in
  quizzes db' = quizzes db
  /\ map fst (users db') = map fst (users db)
  /\ (exists added, results db' = results db ++ added /\ (length added <= 1)%nat)
  /\ (users_unique db -> users_unique db')
  /\ (histories_nodup db -> histories_nodup db').
Proof.
  cbv zeta. destruct (quizzes db !! quizId) as [quiz|] eqn:Hquiz.
  2:{ rewrite submitQuizAnswers_missing_quiz by exact Hquiz. simpl.
      repeat split; auto. exists []. rewrite app_nil_r. split; [reflexivity|simpl; lia]. }
  rewrite (submitQuizAnswers_recorded _ _ _ _ _ _ _ Hquiz). cbv zeta.
  destruct (user_document (users db) userId) as [data|] eqn:Huser.
  - match goal with |- context [update_doc ?u ?f ?d] =>
      destruct (update_doc_found u f d data Huser)
        as (docs & -> & Hkeys & _ & _ & Hin) end.
    cbn [fst quizzes results users]. unfold users_unique. cbn [users].
    rewrite Hkeys. repeat split; auto.
    + eexists. split; [reflexivity|simpl; lia].
    + intros Hnd u d h Hd Hh. cbn [users] in Hd.
      destruct (Hin u d Hd) as [Hold|[-> ->]].
      * exact (Hnd u d h Hold Hh).
      * cbn [user_quizzesTaken] in Hh. injection Hh as <-.
        apply arrayUnion_NoDup. intros l Hl.
        exact (Hnd userId data l (user_document_In _ _ _ Huser) Hl).
  - rewrite update_doc_none by (apply user_document_None, Huser).
    cbn [fst quizzes results users]. repeat split; auto.
    eexists. split; [reflexivity|simpl; lia].
Qed.

Lemma X10_submit_preserves_store_shape_witness :
  let db' := (submitQuizAnswers "quiz1" "A"
                [ {| answer_questionId := "q1"; answer_selectedOptionId := "o1" |} ]
                10 11 example_ab_db).1 in
  users_unique db' /\ histories_nodup db'.
Proof.
  destruct (X10_submit_preserves_store_shape "quiz1" "A"
              [ {| answer_questionId := "q1"; answer_selectedOptionId := "o1" |} ]
              10 11 example_ab_db) as (_ & _ & _ & Hu & Hh).
  split.
  - apply Hu. unfold users_unique. simpl.
    apply NoDup_cons. split; [|apply NoDup_singleton].
    intros H. apply list_elem_of_In in H. destruct H as [H|[]]. discriminate.
  - apply Hh. intros u d h [[= <- <-]|[[= <- <-]|[]]] [= <-].
    + apply NoDup_cons. split; [|apply NoDup_singleton].
      intros H. apply list_elem_of_In in H. destruct H as [H|[]]. discriminate.
    + apply NoDup_singleton.
Defined.

(** X11: after a successful submission that adds a new history entry, the
    leaderboard (for unique user ids, and a user id that is not a property
    name of [Object.prototype]) has a row for the user whose [totalScore] is
    the total of the previous history plus the new score and whose
    [quizzesTaken] is the previous count plus one. *)
Theorem X11_leaderboard_reflects_submission
    quizId userId answers submittedAt completedAt db quiz data :
  users_unique db ->
  quizzes db !! quizId = Some quiz ->
  user_document (users db) userId = Some data ->
  inherited userId = false ->
  let score := score_loop (quiz_questions quiz) answers in
  ~ In {| entry_quizId := quizId; entry_score := score;
          entry_completedAt := completedAt |} (history_of data) ->
  let db' := (submitQuizAnswers quizId userId answers submittedAt completedAt db).1 in
  exists row,
    In row (response_rows (getQuizLeaderboard db').2)
    /\ row_userId row = userId
    /\ row_totalScore row = history_total (history_of data) + score
    /\ row_quizzesTaken row = Z.of_nat (length (history_of data)) + 1.
Proof.
  intros Hu Hquiz Huser Hinh score Hnew db'.
  destruct (submitQuizAnswers_store_shape quizId userId answers submittedAt
              completedAt db) as (_ & Hkeys).
  fold db' in Hkeys.
  assert (Hu' : users_unique db') by (unfold users_unique; rewrite Hkeys; exact Hu).
  assert (Hdoc : user_document (users db') userId
                 = Some {| user_quizzesTaken :=
                             Some (history_of data
                                   ++ [ {| entry_quizId := quizId; entry_score := score;
                                           entry_completedAt := completedAt |} ]) |}).
  { unfold db'. rewrite (submitQuizAnswers_recorded _ _ _ _ _ _ _ Hquiz). cbv zeta.
    match goal with |- context [update_doc ?u ?f ?d] =>
      destruct (update_doc_found u f d data Huser)
        as (docs & -> & _ & Hget & _) end.
    cbn [fst users]. rewrite Hget. do 3 f_equal.
    destruct (arrayUnion_cases
                {| entry_quizId := quizId; entry_score := score;
                   entry_completedAt := completedAt |} (user_quizzesTaken data))
      as [Hin [Hsame|[_ Happ]]].
    - exfalso. apply Hnew. fold score. unfold history_of.
      fold score in Hsame, Hin. rewrite <- Hsame. exact Hin.
    - exact Happ. }
  destruct (leaderboard_rows_characterised db' Hu') as [Hrows Hhas].
  destruct (Hhas userId _ _ (user_document_In _ _ _ Hdoc) eq_refl) as [row [Hrow Hid]].
  { destruct (history_of data); discriminate. }
  { exact Hinh. }
  exists row. split; [exact Hrow|]. split; [exact Hid|].
  destruct (Hrows row Hrow) as (data' & history' & Hin' & Hh' & _ & _ & Htot & Hcnt).
  rewrite Hid in Hin'.
  pose proof (user_document_unique _ _ _ Hu' Hin') as Hdoc'.
  rewrite Hdoc in Hdoc'. injection Hdoc' as <-. cbn [user_quizzesTaken] in Hh'.
  injection Hh' as <-.
  rewrite Htot, Hcnt, history_total_app, length_app, Nat2Z.inj_add.
  unfold history_total at 2. cbn [foldr entry_score length]. split; lia.
Qed.

Lemma X11_leaderboard_reflects_submission_witness :
  let db' := (submitQuizAnswers "quiz1" "A"
                [ {| answer_questionId := "q1"; answer_selectedOptionId := "o1" |} ]
                10 11 example_ab_db).1 in
  exists row,
    In row (response_rows (getQuizLeaderboard db').2)
    /\ row_userId row = "A"
    /\ row_totalScore row = 10 + 1
    /\ row_quizzesTaken row = 2 + 1.
Proof.
  apply (X11_leaderboard_reflects_submission "quiz1" "A"
           [ {| answer_questionId := "q1"; answer_selectedOptionId := "o1" |} ] 10 11
           example_ab_db example_quiz
           {| user_quizzesTaken :=
                Some [ {| entry_quizId := "quiz1"; entry_score := 4;
                          entry_completedAt := 1 |};
                       {| entry_quizId := "quiz1"; entry_score := 6;
                          entry_completedAt := 2 |} ] |}).
  - unfold users_unique. simpl.
    apply NoDup_cons. split; [|apply NoDup_singleton].
    intros H. apply list_elem_of_In in H. destruct H as [H|[]]. discriminate.
  - reflexivity.
  - reflexivity.
  - reflexivity.
  - simpl. intros [H|[H|[]]]; discriminate.
Defined.

(** * Further properties of the leaderboard *)

Lemma own_lookup_Some_listed (o : JsObject) k v :
  own_lookup o k = Some v -> In k (map fst o).
Proof.
  induction o as [|[k' v'] o IH]; simpl; [discriminate|].
  destruct (String.eqb_spec k' k) as [->|_]; [auto|]. intros H. right. apply IH, H.
Qed.

Lemma set_property_listed (o : JsObject) k v :
  In k (map fst o) -> map fst (set_property o k v) = map fst o.
Proof.
  induction o as [|[k' v'] o IH]; simpl; [tauto|].
  destruct (String.eqb_spec k' k) as [->|Hne]; [reflexivity|].
  intros [Hk|Hin]; [contradiction|]. simpl. rewrite IH; auto.
Qed.

Lemma add_quiz_keys userId (o : JsObject) quiz :
  truthy (get_property o userId) = true ->
  exists o', add_quiz userId o quiz = Ok o'
             /\ map fst o' = map fst o
             /\ truthy (get_property o' userId) = true.
Proof.
  intros Ht. unfold add_quiz, get_property in *.
  destruct (own_lookup o userId) as [v|] eqn:E.
  - eexists. split; [reflexivity|]. split.
    + apply set_property_listed, (own_lookup_Some_listed _ _ _ E).
    + rewrite own_lookup_set_same. reflexivity.
  - destruct (inherited userId); [|discriminate].
    exists o. rewrite E. auto.
Qed.

Lemma aggregate_doc_keys (o : JsObject) doc :
  exists o',
    aggregate_doc o doc = Ok o'
    /\ (map fst o' = map fst o
        \/ (~ In (fst doc) (map fst o) /\ map fst o' = map fst o ++ [fst doc])).
Proof.
  unfold aggregate_doc.
  destruct (user_quizzesTaken (snd doc)) as [history|]; [|eauto].
  destruct (0 <? Z.of_nat (length history)); [|eauto].
  destruct (truthy (get_property o (fst doc))) eqn:Ht; simpl.
  - destruct (forEach_invariant (add_quiz (fst doc))
                (fun o' => map fst o' = map fst o
                           /\ truthy (get_property o' (fst doc)) = true))
      with (array := history) (s := o) as (o' & Hrun & Hkeys & _); [|auto|eauto].
    intros s x [Hk Hs]. destruct (add_quiz_keys (fst doc) s x Hs) as (s' & -> & Hk' & Hs').
    exists s'. rewrite Hk', Hk. auto.
  - assert (Hfresh : ~ In (fst doc) (map fst o)).
    { intros Hin. destruct (own_lookup_listed o _ Hin) as [v Hv].
      unfold get_property in Ht. rewrite Hv in Ht. discriminate. }
    pose (o0 := set_property o (fst doc) {| totalScore := 0; quizzesTaken := 0 |}).
    destruct (forEach_invariant (add_quiz (fst doc))
                (fun o' => map fst o' = map fst o0
                           /\ truthy (get_property o' (fst doc)) = true))
      with (array := history) (s := o0) as (o' & Hrun & Hkeys & _).
    + intros s x [Hk Hs].
      destruct (add_quiz_keys (fst doc) s x Hs) as (s' & -> & Hk' & Hs').
      exists s'. rewrite Hk', Hk. auto.
    + split; [reflexivity|]. unfold o0, get_property.
      rewrite own_lookup_set_same. reflexivity.
    + exists o'. split; [exact Hrun|]. right. split; [exact Hfresh|].
      rewrite Hkeys. unfold o0. rewrite (set_property_fresh _ _ _ Hfresh), map_app.
      reflexivity.
Qed.

Lemma aggregate_keys docs : forall o : JsObject,
  NoDup (map fst o) ->
  exists o',
    forEach aggregate_doc docs o = Ok o'
    /\ NoDup (map fst o')
    /\ (length o' <= length o + length docs)%nat
    /\ (forall k, In k (map fst o') -> In k (map fst o) \/ In k (map fst docs)).
Proof.
  induction docs as [|doc docs IH]; intros o Hnd.
  - exists o. simpl. repeat split; auto. lia.
  - destruct (aggregate_doc_keys o doc) as (o1 & Hstep & Hkeys).
    assert (Hnd1 : NoDup (map fst o1)).
    { destruct Hkeys as [->|[Hfresh ->]]; [exact Hnd|].
      apply NoDup_app. split; [exact Hnd|]. split; [|apply NoDup_singleton].
      intros x Hx Hx'. apply list_elem_of_In in Hx, Hx'.
      destruct Hx' as [<-|[]]. exact (Hfresh Hx). }
    destruct (IH o1 Hnd1) as (o' & Hrun & Hnd' & Hlen & Hsub).
    exists o'. cbn [forEach]. rewrite Hstep. split; [exact Hrun|].
    split; [exact Hnd'|]. split.
    + assert (length o1 <= S (length o))%nat.
      { rewrite <- (length_map fst o1), <- (length_map fst o).
        destruct Hkeys as [->|[_ ->]]; [lia|]. rewrite length_app. simpl. lia. }
      simpl. lia.
    + intros k Hk. destruct (Hsub k Hk) as [Hk1|Hk1]; [|right; right; exact Hk1].
      destruct Hkeys as [Heq|[_ Heq]]; rewrite Heq in Hk1; [left; exact Hk1|].
      apply in_app_or in Hk1 as [Hk1|[<-|[]]]; [left; exact Hk1|].
      right. left. reflexivity.
Qed.

Lemma ranked_rows (rank : nat -> Z) lb :
  map row_userId
    (imap (fun index user => {| row_rank := rank index;
                                row_userId := lb_userId user;
                                row_totalScore := lb_totalScore user;
                                row_quizzesTaken := lb_quizzesTaken user |}) lb)
  = map lb_userId lb
  /\ map row_rank
       (imap (fun index user => {| row_rank := rank index;
                                   row_userId := lb_userId user;
                                   row_totalScore := lb_totalScore user;
                                   row_quizzesTaken := lb_quizzesTaken user |}) lb)
     = map rank (seq 0 (length lb)).
Proof.
  revert rank. induction lb as [|e lb IH]; intros rank; [split; reflexivity|].
  rewrite imap_cons. destruct (IH (fun index => rank (S index))) as [IH1 IH2].
  split; simpl; f_equal.
  - exact IH1.
  - rewrite <- seq_shift, map_map. exact IH2.
Qed.

Lemma indexedLeaderboard_userIds lb :
  map row_userId (indexedLeaderboard lb) = map lb_userId lb.
Proof. apply (ranked_rows (fun index => Z.of_nat index + 1)). Qed.

Lemma leaderboard_userIds (o : JsObject) :
  NoDup (map fst o) -> map lb_userId (leaderboard o) ≡ₚ map fst o.
Proof.
  intros Hnd. rewrite (Permutation_map lb_userId (leaderboard_perm o Hnd)).
  rewrite map_map. reflexivity.
Qed.

(** X13: on every store the leaderboard names each user at most once, has
    no more rows than there are user documents, names only ids of user
    documents, and uses exactly the ranks 1 to the number of rows. *)
Theorem X13_leaderboard_users_distinct db :
  let rows := response_rows (getQuizLeaderboard db).2 in
  NoDup (map row_userId rows)
  /\ (length rows <= length (users db))%nat
  /\ (forall row, In row rows -> In (row_userId row) (map fst (users db)))
  /\ map row_rank rows = map (fun i => Z.of_nat i + 1) (seq 0 (length rows)).
Proof.
  cbv zeta. destruct (users db) as [|d docs] eqn:E.
  { rewrite getQuizLeaderboard_no_documents by exact E. simpl.
    repeat split; [constructor | lia | intros row []]. }
  destruct (getQuizLeaderboard_documents db) as (o & Hagg & ->); [congruence|].
  destruct (aggregate_keys (users db) []) as (o' & Hrun & Hnd & Hlen & Hsub);
    [constructor|].
  rewrite Hagg in Hrun. injection Hrun as <-. rewrite <- E.
  unfold response_rows. cbn [snd body].
  split; [|split; [|split]].
  - rewrite indexedLeaderboard_userIds, (leaderboard_userIds o Hnd). exact Hnd.
  - unfold indexedLeaderboard. rewrite length_imap, leaderboard_length.
    simpl in Hlen. exact Hlen.
  - intros row Hrow. apply (in_map row_userId) in Hrow.
    rewrite indexedLeaderboard_userIds in Hrow.
    apply (Permutation_in _ (leaderboard_userIds o Hnd)) in Hrow.
    destruct (Hsub _ Hrow) as [[]|H]. exact H.
  - unfold indexedLeaderboard at 2. rewrite length_imap.
    apply (ranked_rows (fun index => Z.of_nat index + 1)).
Qed.

Lemma expected_score_count docs :
  length (omap expected_score docs)
  = length (List.filter
              (fun doc => negb (inherited (fst doc))
                          && match user_quizzesTaken (snd doc) with
                             | Some (_ :: _) => true
                             | _ => false
                             end) docs).
Proof.
  induction docs as [|doc docs IH]; [reflexivity|].
  cbn [omap list_omap List.filter]. unfold expected_score at 1.
  destruct (user_quizzesTaken (snd doc)) as [[|e history]|]; simpl.
  - rewrite andb_false_r. exact IH.
  - destruct (inherited (fst doc)); simpl; [exact IH | f_equal; exact IH].
  - rewrite andb_false_r. exact IH.
Qed.

(** X12: with unique document ids, every leaderboard row belongs to a user
    document with a non-empty history and carries the sum of that history's
    scores and its number of entries; every user with a non-empty history
    whose id is not a property name of [Object.prototype] has a row; and the
    number of rows is the number of such users. *)
Theorem X12_leaderboard_rows_are_history_totals db :
  users_unique db ->
  let rows := response_rows (getQuizLeaderboard db).2 in
  (forall row, In row rows ->
     exists data history,
       In (row_userId row, data) (users db)
       /\ user_quizzesTaken data = Some history
       /\ history <> []
       /\ row_totalScore row = history_total history
       /\ row_quizzesTaken row = Z.of_nat (length history))
  /\ (forall userId data history,
        In (userId, data) (users db) ->
        user_quizzesTaken data = Some history ->
        history <> [] ->
        inherited userId = false ->
        exists row, In row rows /\ row_userId row = userId)
  /\ length rows
     = length (List.filter
                 (fun doc => negb (inherited (fst doc))
                             && match user_quizzesTaken (snd doc) with
                                | Some (_ :: _) => true
                                | _ => false
                                end) (users db)).
Proof.
  intros Hu rows. destruct (leaderboard_rows_characterised db Hu) as [Hrows Hhas].
  split; [|split].
  - intros row Hrow.
    destruct (Hrows row Hrow) as (data & history & H1 & H2 & H3 & _ & H4 & H5).
    exists data, history. auto.
  - exact Hhas.
  - unfold rows. destruct (users db) as [|d docs] eqn:E.
    + rewrite getQuizLeaderboard_no_documents by exact E. reflexivity.
    + rewrite getQuizLeaderboard_unique by (congruence || exact Hu).
      unfold response_rows. cbn [snd body]. unfold indexedLeaderboard.
      rewrite length_imap, leaderboard_length, E. apply expected_score_count.
Qed.

Lemma X12_leaderboard_rows_are_history_totals_witness :
  length (response_rows (getQuizLeaderboard example_ab_db).2) = 2%nat.
Proof.
  destruct (X12_leaderboard_rows_are_history_totals example_ab_db) as (_ & _ & H).
  - unfold users_unique. simpl.
    apply NoDup_cons. split; [|apply NoDup_singleton].
    intros H. apply list_elem_of_In in H. destruct H as [H|[]]. discriminate.
  - rewrite H. reflexivity.
Defined.

(** ** Ties keep the scan order *)

Section Stability.

Context {A : Type}.
Variable compare : A -> A -> Z.
Variable tied : A -> bool.

(** Elements selected by [tied] compare as equal or in order. *)
Hypothesis tied_in_order :
  forall x y, tied x = true -> tied y = true -> compare x y <= 0.

Lemma sort_insert_stable x l :
  List.filter tied (sort_insert compare x l)
  = if tied x then x :: List.filter tied l else List.filter tied l.
Proof.
  induction l as [|y l IH]; simpl.
  - destruct (tied x); reflexivity.
  - destruct (Z.leb_spec (compare x y) 0) as [Hxy|Hxy]; simpl.
    + destruct (tied x); reflexivity.
    + rewrite IH. destruct (tied y) eqn:Hy; [|reflexivity].
      destruct (tied x) eqn:Hx; [|reflexivity].
      pose proof (tied_in_order x y Hx Hy). lia.
Qed.

Lemma Array_sort_stable l :
  List.filter tied (Array_sort compare l) = List.filter tied l.
Proof.
  unfold Array_sort. induction l as [|x l IH]; [reflexivity|].
  simpl. rewrite sort_insert_stable, IH. reflexivity.
Qed.

End Stability.

Lemma Object_keys_named (o : JsObject) :
  (forall k, In k (map fst o) -> array_index k = None) ->
  Object_keys o = map fst o.
Proof.
  unfold Object_keys. generalize (map fst o) as names. intros names H.
  assert (Hnone : omap (fun k => match array_index k with
                                 | Some n => Some (n, k)
                                 | None => None
                                 end) names = []).
  { induction names as [|k names IH]; [reflexivity|].
    cbn [omap list_omap]. rewrite (H k (or_introl eq_refl)).
    apply IH. intros k' Hk'. apply H. right. exact Hk'. }
  rewrite Hnone. simpl.
  induction names as [|k names IH]; [reflexivity|].
  simpl. rewrite (H k (or_introl eq_refl)). f_equal.
  apply IH.
  - intros k' Hk'. apply H. right. exact Hk'.
  - cbn [omap list_omap] in Hnone. rewrite (H k (or_introl eq_refl)) in Hnone.
    exact Hnone.
Qed.

Lemma indexedLeaderboard_filter t lb :
  map row_userId
    (List.filter (fun row => row_totalScore row =? t) (indexedLeaderboard lb))
  = map lb_userId (List.filter (fun e => lb_totalScore e =? t) lb).
Proof.
  unfold indexedLeaderboard.
  generalize (fun index : nat => Z.of_nat index + 1) as rank.
  assert (H : forall (rank : nat -> Z),
             map row_userId
               (List.filter (fun row => row_totalScore row =? t)
                  (imap (fun index user =>
                           {| row_rank := rank index;
                              row_userId := lb_userId user;
                              row_totalScore := lb_totalScore user;
                              row_quizzesTaken := lb_quizzesTaken user |}) lb))
             = map lb_userId (List.filter (fun e => lb_totalScore e =? t) lb)).
  { induction lb as [|e lb IH]; intros rank; [reflexivity|].
    rewrite imap_cons. simpl. destruct (lb_totalScore e =? t); simpl;
      [f_equal|]; apply (IH (fun index => rank (S index))). }
  intros _. apply (H (fun index => Z.of_nat index + 1)).
Qed.

(** X14: ties are not reordered.  With unique document ids none of which is
    an array index, the users whose total is a given score appear on the
    leaderboard in the order in which their documents are scanned. *)
Theorem X14_leaderboard_ties_keep_scan_order db t :
  users_unique db ->
  (forall k, In k (map fst (users db)) -> array_index k = None) ->
  map row_userId
    (List.filter (fun row => row_totalScore row =? t)
                 (response_rows (getQuizLeaderboard db).2))
  = map fst
      (List.filter (fun kv => totalScore (snd kv) =? t)
                   (omap expected_score (users db))).
Proof.
  intros Hu Hnamed. destruct (users db) as [|d docs] eqn:E.
  { rewrite getQuizLeaderboard_no_documents by exact E. reflexivity. }
  rewrite getQuizLeaderboard_unique by (congruence || exact Hu).
  rewrite E. unfold response_rows. cbn [snd body].
  set (o := omap expected_score (d :: docs)).
  assert (Hnd : NoDup (map fst o)).
  { apply expected_keys_unique. rewrite <- E. exact Hu. }
  assert (Hkeys : forall k, In k (map fst o) -> array_index k = None).
  { intros k Hk. apply Hnamed. try rewrite E.
    apply in_map_iff in Hk as [kv [<- Hkv]].
    apply list_elem_of_In, list_elem_of_omap in Hkv as [doc [Hdoc Hexp]].
    rewrite (expected_score_key _ _ Hexp). apply in_map, list_elem_of_In, Hdoc. }
  rewrite indexedLeaderboard_filter. unfold leaderboard.
  rewrite (Object_keys_named o Hkeys).
  rewrite entries_for_own by (intros k v; apply own_lookup_unique, Hnd).
  rewrite (Array_sort_stable descending (fun e => lb_totalScore e =? t)).
  - clear Hnd Hkeys. generalize o as l. intros l.
    induction l as [|[k v] l IH]; [reflexivity|].
    simpl. destruct (totalScore v =? t); simpl; [f_equal|]; apply IH.
  - unfold descending. intros x y Hx Hy.
    apply Z.eqb_eq in Hx, Hy. lia.
Qed.

Lemma X14_leaderboard_ties_keep_scan_order_witness :
  map row_userId
    (List.filter (fun row => row_totalScore row =? 5)
                 (response_rows (getQuizLeaderboard example_tie_db).2))
  = ["carol"; "alice"].
Proof.
  rewrite (X14_leaderboard_ties_keep_scan_order example_tie_db 5).
  - reflexivity.
  - unfold users_unique. simpl.
    repeat (apply NoDup_cons; split;
            [intros H; apply list_elem_of_In in H; simpl in H;
             repeat (destruct H as [H|H]; try discriminate H); exact H|]).
    apply NoDup_nil_2.
  - intros k [<-|[<-|[<-|[]]]]; reflexivity.
Defined.

(** X15: the leaderboard handler never answers with the generic 500: it
    answers 404 "No users found" exactly when there is no user document and
    200 with an array of rows otherwise, and it never writes to the store. *)
Theorem X15_leaderboard_never_fails db :
  (users db = []
   /\ getQuizLeaderboard db
      = (db, {| status := 404; body := Message "No users found" |}))
  \/ (users db <> []
      /\ exists rows,
           getQuizLeaderboard db = (db, {| status := 200; body := Rows rows |})).
Proof.
  destruct (users db) as [|d docs] eqn:E.
  - left. split; [reflexivity|]. apply getQuizLeaderboard_no_documents, E.
  - right. split; [discriminate|].
    destruct (getQuizLeaderboard_documents db) as (o & _ & ->); [congruence|].
    eauto.
Qed.


(** * The quiz handlers *)

Lemma quiz_documents_perm db : quiz_documents db ≡ₚ map_to_list (quizzes db).
Proof. apply Array_sort_perm. Qed.

Lemma quiz_documents_In db quizId quiz :
  In (quizId, quiz) (quiz_documents db) <-> quizzes db !! quizId = Some quiz.
Proof.
  rewrite <- elem_of_map_to_list, <- list_elem_of_In.
  rewrite (quiz_documents_perm db). reflexivity.
Qed.

Lemma quiz_documents_nil db : quiz_documents db = [] <-> quizzes db = ∅.
Proof.
  rewrite <- map_to_list_empty_iff. split; intros H.
  - apply Permutation_nil. rewrite <- H. apply quiz_documents_perm.
  - apply Permutation_nil. rewrite <- H. symmetry. apply quiz_documents_perm.
Qed.

Lemma quiz_documents_ids db : NoDup (map fst (quiz_documents db)).
Proof.
  rewrite (Permutation_map fst (quiz_documents_perm db)).
  exact (NoDup_fst_map_to_list (quizzes db)).
Qed.

Lemma quiz_documents_length db : length (quiz_documents db) = size (quizzes db).
Proof.
  rewrite (Permutation_length (quiz_documents_perm db)).
  apply length_map_to_list.
Qed.

Lemma getAllQuizzes_run db :
  getAllQuizzes db
  = (db, match quiz_documents db with
         | [] => {| quiz_status := 404; quiz_body := QuizMessage "No quizzes found" |}
         | _ => {| quiz_status := 200;
                   quiz_body := QuizList (map quiz_summary (quiz_documents db)) |}
         end).
Proof.
  unfold getAllQuizzes, try_catch_quiz, bind, quizzes_get, ret.
  fold (quiz_documents db). destruct (quiz_documents db); reflexivity.
Qed.

Lemma createQuiz_run title description questions quizId createdAt db :
  createQuiz title description questions quizId createdAt db
  = ({| quizzes := <[quizId := {| quiz_title := title;
                                  quiz_description := description;
                                  quiz_questions := questions;
                                  quiz_createdAt := createdAt |}]> (quizzes db);
        results := results db;
        users := users db |},
     {| quiz_status := 201;
        quiz_body := QuizCreated "Quiz created successfully" quizId |}).
Proof. reflexivity. Qed.

Lemma getQuizById_run quizId db :
  getQuizById quizId db
  = (db, match quizzes db !! quizId with
         | Some quiz => {| quiz_status := 200; quiz_body := QuizData quiz |}
         | None => {| quiz_status := 404; quiz_body := QuizMessage "Quiz not found" |}
         end).
Proof.
  unfold getQuizById, try_catch_quiz, bind, quizzes_doc_data, ret.
  destruct (quizzes db !! quizId); reflexivity.
Qed.

(** X16: a quiz that has been created can be fetched: [createQuiz] answers
    201 with the generated id, and [getQuizById] with that id then answers
    200 with the title, description, questions and creation time that were
    stored, whatever was in the store before. *)
Theorem X16_created_quiz_can_be_fetched
    title description questions quizId createdAt db :
  let created := createQuiz title description questions quizId createdAt db in
  created.2 = {| quiz_status := 201;
                 quiz_body := QuizCreated "Quiz created successfully" quizId |}
  /\ getQuizById quizId created.1
     = (created.1,
        {| quiz_status := 200;
           quiz_body := QuizData {| quiz_title := title;
                                    quiz_description := description;
                                    quiz_questions := questions;
                                    quiz_createdAt := createdAt |} |}).
Proof.
  cbv zeta. rewrite createQuiz_run. split; [reflexivity|].
  rewrite getQuizById_run. cbn [fst quizzes]. rewrite lookup_insert_eq. reflexivity.
Qed.

Lemma getQuizLeaderboard_reads_users db db' :
  users db = users db' -> (getQuizLeaderboard db).2 = (getQuizLeaderboard db').2.
Proof.
  intros Hu. destruct (users db') as [|d docs] eqn:E.
  - rewrite !getQuizLeaderboard_no_documents by congruence. reflexivity.
  - destruct (getQuizLeaderboard_documents db) as (o & Ho & ->); [congruence|].
    destruct (getQuizLeaderboard_documents db') as (o' & Ho' & ->); [congruence|].
    rewrite Hu in Ho. rewrite E in Ho'. rewrite Ho in Ho'.
    injection Ho' as ->. reflexivity.
Qed.

(** X17: creating a quiz touches nothing else: every other quiz is fetched
    as before, the results and the user documents are unchanged, and so is
    the leaderboard. *)
Theorem X17_createQuiz_leaves_the_rest
    title description questions quizId createdAt db :
  let db' := (createQuiz title description questions quizId createdAt db).1 in
  (forall other, other <> quizId ->
                 (getQuizById other db').2 = (getQuizById other db).2)
  /\ results db' = results db
  /\ users db' = users db
  /\ (getQuizLeaderboard db').2 = (getQuizLeaderboard db).2.
Proof.
  cbv zeta. rewrite createQuiz_run. cbn [fst].
  split; [|split; [reflexivity|split; [reflexivity|]]].
  - intros other Hother. rewrite !getQuizById_run. cbn [snd quizzes].
    rewrite lookup_insert_ne by congruence. reflexivity.
  - apply getQuizLeaderboard_reads_users. reflexivity.
Qed.

Lemma X17_createQuiz_leaves_the_rest_witness :
  (getQuizById "quiz1" (createQuiz "Capitals" "More capitals" [] "quiz7" 3 example_db).1).2
  = (getQuizById "quiz1" example_db).2.
Proof.
  destruct (X17_createQuiz_leaves_the_rest "Capitals" "More capitals" [] "quiz7" 3
              example_db) as [H _].
  apply H. discriminate.
Defined.

(** X18: the quiz list is complete and exact.  With no quiz stored the
    answer is 404 "No quizzes found"; otherwise it is 200 with one summary
    per stored quiz, no id twice, and a summary is listed exactly when a
    quiz with that id, title and description is stored. *)
Theorem X18_getAllQuizzes_lists_every_quiz db :
  (quizzes db = ∅
   /\ getAllQuizzes db
      = (db, {| quiz_status := 404; quiz_body := QuizMessage "No quizzes found" |}))
  \/ (quizzes db <> ∅
      /\ exists summaries,
           getAllQuizzes db
           = (db, {| quiz_status := 200; quiz_body := QuizList summaries |})
           /\ length summaries = size (quizzes db)
           /\ NoDup (map summary_quizId summaries)
           /\ forall s,
                In s summaries
                <-> exists quiz,
                      quizzes db !! summary_quizId s = Some quiz
                      /\ summary_title s = quiz_title quiz
                      /\ summary_description s = quiz_description quiz).
Proof.
  rewrite getAllQuizzes_run.
  destruct (quiz_documents db) as [|d docs] eqn:E.
  - left. split; [apply quiz_documents_nil, E | reflexivity].
  - right. split.
    { intros Hempty. apply quiz_documents_nil in Hempty. congruence. }
    rewrite <- E. eexists. split; [reflexivity|]. split; [|split].
    + rewrite length_map. apply quiz_documents_length.
    + rewrite map_map. apply (quiz_documents_ids db).
    + intros s. rewrite in_map_iff. split.
      * intros [[k quiz] [<- Hin]]. exists quiz.
        apply quiz_documents_In in Hin. auto.
      * intros [quiz (Hq & Ht & Hd)]. exists (summary_quizId s, quiz).
        split; [|apply quiz_documents_In, Hq].
        destruct s. unfold quiz_summary. simpl in *. congruence.
Qed.

(** X19: once a quiz has been created the quiz list is never empty: it is
    answered 200 and lists the new quiz under the generated id with the
    submitted title and description. *)
Theorem X19_created_quiz_is_listed title description questions quizId createdAt db :
  let db' := (createQuiz title description questions quizId createdAt db).1 in
  exists summaries,
    getAllQuizzes db'
    = (db', {| quiz_status := 200; quiz_body := QuizList summaries |})
    /\ In {| summary_quizId := quizId;
             summary_title := title;
             summary_description := description |} summaries.
Proof.
  cbv zeta. rewrite createQuiz_run. cbn [fst]. rewrite getAllQuizzes_run.
  match goal with |- context [quiz_documents ?d] => set (db' := d) end.
  assert (Hin : In (quizId, {| quiz_title := title;
                               quiz_description := description;
                               quiz_questions := questions;
                               quiz_createdAt := createdAt |}) (quiz_documents db')).
  { apply quiz_documents_In. unfold db'. cbn [quizzes]. apply lookup_insert_eq. }
  destruct (quiz_documents db') as [|d docs] eqn:E; [destruct Hin|].
  rewrite <- E in *. eexists. split; [reflexivity|].
  apply (in_map quiz_summary) in Hin. exact Hin.
Qed.
